(** * ContextGraph integrations: decision lifecycle, correlation table, serializer

    Shallow embedding of the three adapters of the repository
    - [crewai/contextgraph_observer.py]   (class [ContextGraphObserver]),
    - [langchain/contextgraph_callback.py] (class [ContextGraphCallback]),
    - [langchain/contextgraph_middleware.py] (class [ContextGraphClient],
      [contextgraph_middleware], module-level [_serialize]),
    and the properties of the specification that concern them.

    Python values are an inductive type; host objects live in a heap and are
    referred to by address, so that attribute bags may be cyclic.  Code that
    can raise returns a [result]; code that talks to the remote store or
    touches the adapter's mutable fields runs in a state-and-exception monad
    whose state records every call made to [self._client.post] and every
    line written with [logger.error].  Where a hook tests, renders, measures
    or subscripts a value of the host, the class of a host object answers,
    and may raise.

    Embedded: the serializer; [_log_decision] and [_transition_decision] of
    the three adapters; the constructors; the crew, task, agent, tool and
    thought hooks of the observer; the agent, tool and LLM hooks and the
    chain end and error hooks of the callback handler; the model hooks and
    the tool generator built inside [contextgraph_middleware].  Not
    embedded: [on_chain_start], whose name lookup indexes a list from its
    end; [__del__], [close] and [create_observer], which only release or
    forward. *)

From Stdlib Require Import Floats Ascii.
From stdpp Require Import base option list strings gmap.

Open Scope string_scope.
Open Scope list_scope.
#[local] Set Warnings "-register-all".

(** ** Python values *)

Definition loc := nat.

(** [PDict] is an insertion-ordered association list; Python keeps the keys of
    a dict pairwise distinct, and every dict built by the adapters is
    string-keyed ([Dict[str, Any]]).  [PObj] is a reference to a host object
    (anything that is not [None], a scalar, a dict, a list or a tuple). *)
Inductive value :=
| PNone
| PBool (b : bool)
| PInt (z : Z)
| PFloat (f : float)
| PStr (s : string)
| PList (vs : list value)
| PTuple (vs : list value)
| PDict (kvs : list (string * value))
| PObj (a : loc).

Abbreviation dict := (list (string * value)).

(** Exceptions, all of them subclasses of Python's [Exception]. *)
Inductive exn :=
| TypeError
| ValueError
| AttributeError
| KeyError
| IndexError
| RecursionError
| JSONDecodeError
| HTTPStatusError (status : Z)
| TransportError (reason : string).

Inductive result (A : Type) :=
| Ok (a : A)
| Raise (e : exn).
Arguments Ok {A} a.
Arguments Raise {A} e.

Definition rbind {A B} (r : result A) (k : A -> result B) : result B :=
  match r with
  | Ok a => k a
  | Raise e => Raise e
  end.

Fixpoint mapM {A B} (f : A -> result B) (l : list A) : result (list B) :=
  match l with
  | [] => Ok []
  | x :: l' => rbind (f x) (fun y => rbind (mapM f l') (fun ys => Ok (y :: ys)))
  end.

(** A host object: the attributes found on its class (methods included), its
    instance attribute bag [__dict__] when it has one, and what calling it
    with no argument does when it is callable. *)
Record object := {
  obj_class : dict;
  obj_vars : option dict;
  obj_call : option (result value)
}.

(** ** Dict operations *)

Fixpoint dict_get (k : string) (d : dict) : option value :=
  match d with
  | [] => None
  | (k', v) :: d' => if String.eqb k k' then Some v else dict_get k d'
  end.

(** [d[k] = v]: replaces the value in place when the key is present, appends
    the pair otherwise. *)
Fixpoint dict_set (k : string) (v : value) (d : dict) : dict :=
  match d with
  | [] => [(k, v)]
  | (k', v') :: d' =>
      if String.eqb k k' then (k', v) :: d' else (k', v') :: dict_set k v d'
  end.

(** [{**d, **extra}] *)
Definition dict_update (d extra : dict) : dict :=
  fold_left (fun acc kv => dict_set (fst kv) (snd kv) acc) extra d.

Definition keys (d : dict) : list string := map fst d.

(** Truth value of [if x:] on the values the adapters build or read from a
    reply of the store.  A host object counts as true here, which is the
    default of [object.__bool__]; [truth] below is the test on a value that
    comes from the host, where the class of the object decides. *)
Definition truthy (v : value) : bool :=
  match v with
  | PNone => false
  | PBool b => b
  | PInt z => negb (Z.eqb z 0)
  | PFloat f => negb (PrimFloat.eqb f 0)
  | PStr s => negb (String.eqb s "")
  | PList vs | PTuple vs => negb (Nat.eqb (length vs) 0)
  | PDict kvs => negb (Nat.eqb (length kvs) 0)
  | PObj _ => true
  end.

(** [s[:n]] on a string, one element of the Rocq string for each character
    of the Python string. *)
Definition str_prefix (n : nat) (s : string) : string := String.substring 0 n s.

(** [x[:n]] on a value the serializer returned: strings and sequences are
    sliced, anything else is not subscriptable (or, for a dict, not
    subscriptable by a slice).  [slice_of] below is the slice of a value that
    comes from the host. *)
Definition slice_to (n : nat) (x : value) : result value :=
  match x with
  | PStr s => Ok (PStr (str_prefix n s))
  | PList vs => Ok (PList (take n vs))
  | PTuple vs => Ok (PTuple (take n vs))
  | _ => Raise TypeError
  end.

(** ** The interpreter and the host heap

    What the embedding takes from the Python runtime: the host objects, the
    builtins [str] and [id] on values whose rendering the adapters do not fix,
    and the number of frames left before [RecursionError] when a hook runs. *)
Record interp := {
  heap : loc -> object;
  display : value -> string;
  identity : value -> Z;
  recursion_limit : nat
}.

Section Builtins.
Context (I : interp).

(** The text of [str(x)].  [py_str] below is [str] on a value that comes from
    the host, whose class may render it with a method of its own. *)
Definition to_str (x : value) : string :=
  match x with
  | PStr s => s
  | PNone => "None"
  | PBool true => "True"
  | PBool false => "False"
  | _ => display I x
  end.

(** [str(id(x))] *)
Definition id_str (x : value) : string := to_str (PInt (identity I x)).

(** Attribute lookup [obj.name]: the instance bag first, then the class.
    Values that are not host objects carry none of the attributes the
    adapters ask for. *)
Definition getattr (obj : value) (name : string) : option value :=
  match obj with
  | PObj a =>
      match obj_vars (heap I a) with
      | Some bag =>
          match dict_get name bag with
          | Some v => Some v
          | None => dict_get name (obj_class (heap I a))
          end
      | None => dict_get name (obj_class (heap I a))
      end
  | _ => None
  end.

(** [getattr(obj, name, dflt)] *)
Definition getattr_default (obj : value) (name : string) (dflt : value) : value :=
  default dflt (getattr obj name).

Definition hasattr (obj : value) (name : string) : bool :=
  match getattr obj name with
  | Some _ => true
  | None => false
  end.

(** [obj.__dict__] *)
Definition vars (obj : value) : option dict :=
  match obj with
  | PObj a => obj_vars (heap I a)
  | _ => None
  end.

(** [f()]: a value that is not callable raises [TypeError]. *)
Definition call (f : value) : result value :=
  match f with
  | PObj a =>
      match obj_call (heap I a) with
      | Some r => r
      | None => Raise TypeError
      end
  | _ => Raise TypeError
  end.

(** [obj.name()] *)
Definition call_method (obj : value) (name : string) : result value :=
  match getattr obj name with
  | Some f => call f
  | None => Raise AttributeError
  end.

(** ** The generic serializer

    The three copies of [_serialize] (observer l.377, callback l.437,
    middleware l.280) have the same body.  [depth] is the number of nested
    calls the interpreter still allows: Python raises [RecursionError]
    when it is used up. *)
Fixpoint _serialize (depth : nat) (obj : value) : result value :=
  match depth with
  | 0 => Raise RecursionError
  | S d =>
      match obj with
      | PNone => Ok PNone
      | PStr _ | PInt _ | PFloat _ | PBool _ => Ok obj
      | PDict kvs =>
          rbind (mapM (fun kv => rbind (_serialize d (snd kv))
                                   (fun v => Ok (fst kv, v))) kvs)
                (fun items => Ok (PDict items))
      | PList vs | PTuple vs =>
          rbind (mapM (_serialize d) vs) (fun items => Ok (PList items))
      | PObj _ =>
          if hasattr obj "dict"
          then rbind (call_method obj "dict") (_serialize d)
          else
            match vars obj with
            | Some bag => _serialize d (PDict bag)
            | None => Ok (PStr (to_str obj))
            end
      end
  end.

(** [self._serialize(x)] as a hook calls it. *)
Definition serialize (obj : value) : result value :=
  _serialize (recursion_limit I) obj.
(** [obj.name]: [AttributeError] when the attribute is absent. *)
Definition attr (obj : value) (name : string) : result value :=
  match getattr obj name with
  | Some v => Ok v
  | None => Raise AttributeError
  end.

(** [for x in v]: the items of a list or tuple, the keys of a dict, the
    characters of a string; anything else is taken as not iterable. *)
Definition iterate (v : value) : result (list value) :=
  match v with
  | PList vs | PTuple vs => Ok vs
  | PDict kvs => Ok (map (fun kv => PStr (fst kv)) kvs)
  | PStr s => Ok (map (fun c => PStr (String c EmptyString)) (String.list_ascii_of_string s))
  | _ => Raise TypeError
  end.

(** ** Operations on values of the host

    The hooks test, render, measure and subscript values that come straight
    from the host.  On a host object Python looks these operations up on the
    class and calls what it finds: the entry of the class table is the bound
    method, a host object of its own, and calling it stands for the
    operation with the argument the hook gives it. *)

(** The special method [name] of a host object, looked up on its class. *)
Definition special (x : value) (name : string) : option value :=
  match x with
  | PObj a => dict_get name (obj_class (heap I a))
  | _ => None
  end.

(** [len] accepts an int that is not negative from [__len__]. *)
Definition as_length (r : value) : result Z :=
  match r with
  | PInt n => if (n <? 0)%Z then Raise ValueError else Ok n
  | PBool b => Ok (if b then 1 else 0)%Z
  | _ => Raise TypeError
  end.

(** [bool(x)], the test of [if x]: a host object answers with [__bool__],
    which must return a bool, or else with [__len__], and is true when its
    class has neither. *)
Definition truth (x : value) : result bool :=
  match x with
  | PObj _ =>
      match special x "__bool__" with
      | Some m =>
          rbind (call m) (fun r =>
            match r with
            | PBool b => Ok b
            | _ => Raise TypeError
            end)
      | None =>
          match special x "__len__" with
          | Some m =>
              rbind (rbind (call m) as_length) (fun n => Ok (negb (Z.eqb n 0)))
          | None => Ok true
          end
      end
  | _ => Ok (truthy x)
  end.

(** What a rendering method gives: it must return a string. *)
Definition rendered (m : value) : result string :=
  rbind (call m) (fun r =>
    match r with
    | PStr s => Ok s
    | _ => Raise TypeError
    end).

(** The first exception met by [repr(x)], which renders the items of a
    container with [repr] and a host object with the [__repr__] of its
    class. *)
Fixpoint repr_error (x : value) : option exn :=
  match x with
  | PList vs | PTuple vs =>
      (fix items (l : list value) : option exn :=
         match l with
         | [] => None
         | y :: l' =>
             match repr_error y with
             | Some e => Some e
             | None => items l'
             end
         end) vs
  | PDict kvs =>
      (fix items (l : list (string * value)) : option exn :=
         match l with
         | [] => None
         | kv :: l' =>
             match repr_error (snd kv) with
             | Some e => Some e
             | None => items l'
             end
         end) kvs
  | PObj _ =>
      match special x "__repr__" with
      | Some m =>
          match rendered m with
          | Ok _ => None
          | Raise e => Some e
          end
      | None => None
      end
  | _ => None
  end.

(** [str(x)]: a host object is rendered by the [__str__] of its class, or
    else by its [__repr__]; a container renders its items with [repr]. *)
Definition py_str (x : value) : result string :=
  match x with
  | PObj _ =>
      match special x "__str__" with
      | Some m => rendered m
      | None =>
          match special x "__repr__" with
          | Some m => rendered m
          | None => Ok (to_str x)
          end
      end
  | _ =>
      match repr_error x with
      | Some e => Raise e
      | None => Ok (to_str x)
      end
  end.

(** [x[:n]]: a host object is subscripted by the [__getitem__] of its
    class. *)
Definition slice_of (n : nat) (x : value) : result value :=
  match x with
  | PObj _ =>
      match special x "__getitem__" with
      | Some m => call m
      | None => Raise TypeError
      end
  | _ => slice_to n x
  end.

(** [x[-1]] *)
Definition last_item (x : value) : result value :=
  match x with
  | PList vs | PTuple vs =>
      match last vs with
      | Some y => Ok y
      | None => Raise IndexError
      end
  | PStr s =>
      match String.get (String.length s - 1) s with
      | Some c => Ok (PStr (String c EmptyString))
      | None => Raise IndexError
      end
  | PDict _ => Raise KeyError
  | PObj _ =>
      match special x "__getitem__" with
      | Some m => call m
      | None => Raise TypeError
      end
  | _ => Raise TypeError
  end.

(** [len(v)] *)
Definition py_len (v : value) : result value :=
  match v with
  | PStr s => Ok (PInt (Z.of_nat (String.length s)))
  | PList vs | PTuple vs => Ok (PInt (Z.of_nat (length vs)))
  | PDict kvs => Ok (PInt (Z.of_nat (length kvs)))
  | PObj _ =>
      match special v "__len__" with
      | Some m => rbind (rbind (call m) as_length) (fun n => Ok (PInt n))
      | None => Raise TypeError
      end
  | _ => Raise TypeError
  end.

(** [str(x)[:limit] if x else None] *)
Definition text_or_none (limit : nat) (x : value) : result value :=
  rbind (truth x) (fun t =>
    if t
    then rbind (py_str x) (fun s => Ok (PStr (str_prefix limit s)))
    else Ok PNone).

(** [str(v[-1]) if v else None] *)
Definition last_str_or_none (v : value) : result value :=
  rbind (truth v) (fun t =>
    if t
    then rbind (last_item v) (fun x =>
         rbind (py_str x) (fun s => Ok (PStr s)))
    else Ok PNone).

End Builtins.

(** The values JSON has: no tuple, no host object. *)
Fixpoint json_safe (v : value) : bool :=
  match v with
  | PNone | PBool _ | PInt _ | PFloat _ | PStr _ => true
  | PList vs => forallb json_safe vs
  | PDict kvs => forallb (fun kv => json_safe (snd kv)) kvs
  | PTuple _ | PObj _ => false
  end.

(** Nesting depth of a value, host objects counted as leaves. *)
Fixpoint nesting (v : value) : nat :=
  match v with
  | PList vs | PTuple vs => S (foldr (fun x n => Nat.max (nesting x) n) 0 vs)
  | PDict kvs => S (foldr (fun kv n => Nat.max (nesting (snd kv)) n) 0 kvs)
  | _ => 1
  end.

(** [within I n v]: the graph below [v], followed through containers,
    exports and attribute bags exactly as [_serialize] follows it, is at most
    [n] calls deep and every export met on the way is callable and returns. *)
Inductive within (I : interp) : nat -> value -> Prop :=
| within_none n : within I (S n) PNone
| within_bool n b : within I (S n) (PBool b)
| within_int n z : within I (S n) (PInt z)
| within_float n f : within I (S n) (PFloat f)
| within_str n s : within I (S n) (PStr s)
| within_list n vs :
    (forall x, In x vs -> within I n x) -> within I (S n) (PList vs)
| within_tuple n vs :
    (forall x, In x vs -> within I n x) -> within I (S n) (PTuple vs)
| within_dict n kvs :
    (forall kv, In kv kvs -> within I n (snd kv)) -> within I (S n) (PDict kvs)
| within_export n a export exported :
    getattr I (PObj a) "dict" = Some export ->
    call I export = Ok exported ->
    within I n exported ->
    within I (S n) (PObj a)
| within_bag n a bag :
    getattr I (PObj a) "dict" = None ->
    vars I (PObj a) = Some bag ->
    within I n (PDict bag) ->
    within I (S n) (PObj a)
| within_opaque n a :
    getattr I (PObj a) "dict" = None ->
    vars I (PObj a) = None ->
    within I (S n) (PObj a).

(** ** The remote store and the adapter state *)

(** One call [self._client.post(url, json=payload)]. *)
Record request := { url : string; json : dict }.

(** What a call to [post] does: it raises (network failure, timeout, a
    payload the transport cannot encode) or it returns a response with a
    status code and a body, [None] when the body is not JSON. *)
Inductive outcome :=
| Fails (e : exn)
| Responds (status : Z) (body : option value).

(** The world outside the adapter: the reply to each call, which may depend
    on every call made before, and the clock read by
    [datetime.utcnow().isoformat()]. *)
Record remote := {
  http : list request -> request -> outcome;
  utcnow : list request -> string
}.

Inductive log_line :=
| FailedToLog (e : exn)
| FailedToTransition (decision_id : value) (e : exn).

(** [sent]: the calls made to [post], oldest first.  [errors]: the lines
    written with [logger.error].  [active]: the table of decisions in flight
    ([_active_decisions] in the observer, [_run_decisions] in the callback
    handler). *)
Record world := {
  sent : list request;
  errors : list log_line;
  active : gmap string value
}.

Definition M (A : Type) : Type := world -> result A * world.

Definition ret {A} (a : A) : M A := fun w => (Ok a, w).

Definition raise {A} (e : exn) : M A := fun w => (Raise e, w).

Definition lift {A} (r : result A) : M A := fun w => (r, w).

Definition bind {A B} (m : M A) (k : A -> M B) : M B :=
  fun w =>
    match m w with
    | (Ok a, w') => k a w'
    | (Raise e, w') => (Raise e, w')
    end.

(** [try: body except Exception as e: handler(e)] *)
Definition try_except {A} (body : M A) (handler : exn -> M A) : M A :=
  fun w =>
    match body w with
    | (Ok a, w') => (Ok a, w')
    | (Raise e, w') => handler e w'
    end.

Declare Scope py_scope.
Delimit Scope py_scope with py.
Notation "x <- m ;; k" := (bind m (fun x => k))
  (at level 100, m at next level, right associativity) : py_scope.
Notation "m ;;; k" := (bind m (fun _ => k))
  (at level 100, right associativity) : py_scope.
Open Scope py_scope.

Definition record_sent (rq : request) (w : world) : world :=
  {| sent := sent w ++ [rq]; errors := errors w; active := active w |}.

Definition record_error (l : log_line) (w : world) : world :=
  {| sent := sent w; errors := errors w ++ [l]; active := active w |}.

Definition logger_error (l : log_line) : M unit :=
  fun w => (Ok tt, record_error l w).

(** [table[key] = decision_id] *)
Definition put (key : string) (decision_id : value) : M unit :=
  fun w => (Ok tt, {| sent := sent w; errors := errors w;
                      active := <[key := decision_id]> (active w) |}).

(** [table.pop(key, None)] *)
Definition pop (key : string) : M value :=
  fun w => (Ok (default PNone (active w !! key)),
            {| sent := sent w; errors := errors w; active := delete key (active w) |}).

(** What has been sent between two states of one run. *)
Definition issued (w w' : world) : list request := drop (length (sent w)) (sent w').

(** A request that moves a decision to a terminal status. *)
Definition terminal (rq : request) : bool :=
  match dict_get "status" (json rq) with
  | Some (PStr s) => String.eqb s "executed" || String.eqb s "failed"
  | _ => false
  end.

Definition transition_url (I : interp) (decision_id : value) : string :=
  "/v1/decisions/" +:+ to_str I decision_id +:+ "/transition".

(** [response.is_success]: the status is 2xx. *)
Definition is_success (status : Z) : bool :=
  (200 <=? status)%Z && (status <? 300)%Z.

Section Client.
Context (I : interp) (R : remote).

Definition post (path : string) (payload : dict) : M (Z * option value) :=
  fun w =>
    let rq := {| url := path; json := payload |} in
    match http R (sent w) rq with
    | Fails e => (Raise e, record_sent rq w)
    | Responds status body => (Ok (status, body), record_sent rq w)
    end.

(** [response.raise_for_status()]: any status outside 2xx raises. *)
Definition raise_for_status (response : Z * option value) : M unit :=
  if is_success (fst response)
  then ret tt
  else raise (HTTPStatusError (fst response)).

(** [response.json()] *)
Definition response_json (response : Z * option value) : M value :=
  match snd response with
  | Some v => ret v
  | None => raise JSONDecodeError
  end.

(** [decision.get(k)]: only a JSON object has the method. *)
Definition get_method (decision : value) (k : string) : M value :=
  match decision with
  | PDict d => ret (default PNone (dict_get k d))
  | _ => raise AttributeError
  end.

Definition now : M string := fun w => (Ok (utcnow R (sent w)), w).

(** The fields of an adapter instance that the two client operations read.
    [self_ref_key] is the context key under which the fourth argument of
    [_log_decision] is filed: ["reference_id"] in the observer, ["run_id"]
    in the callback handler, none in [ContextGraphClient.log_decision],
    which takes no such argument. *)
Context (self_agent_id : string) (self_source : string)
        (self_ref_key : option string)
        (self_auto_approve : bool) (self_metadata : dict).

(** The body shared by [_transition_decision] (observer l.153, callback
    l.147) and [ContextGraphClient.transition_decision] (middleware l.97). *)
Definition transition_decision_body (decision_id : value) (status : string)
    (result : value) : M unit :=
  try_except
    (let payload := [("status", PStr status)] in
     let payload := if truthy result then dict_set "result" result payload
                    else payload in
     response <- post (transition_url I decision_id) payload ;;
     raise_for_status response)
    (fun e => logger_error (FailedToTransition decision_id e)).

(** The [context] entry of the creation payload. *)
Definition proposed_context (context : dict) (timestamp : string)
    (reference_id : value) : dict :=
  let merged := dict_set "source" (PStr self_source)
                  (dict_set "timestamp" (PStr timestamp)
                     (dict_update context self_metadata)) in
  match self_ref_key with
  | Some key => if truthy reference_id then dict_set key reference_id merged
                else merged
  | None => merged
  end.

(** The body shared by [_log_decision] (observer l.113, callback l.107)
    and [ContextGraphClient.log_decision] (middleware l.61); the three
    differ in the source tag and in the reference key only. *)
Definition log_decision_body (decision_type : string) (action : value)
    (context : dict) (reference_id : value) : M value :=
  try_except
    (timestamp <- now ;;
     let payload :=
       [("agent_id", PStr self_agent_id);
        ("type", PStr decision_type);
        ("action", action);
        ("status", PStr "proposed");
        ("context", PDict (proposed_context context timestamp reference_id))] in
     response <- post "/v1/decisions" payload ;;
     raise_for_status response ;;;
     decision <- response_json response ;;
     decision_id <- get_method decision "id" ;;
     (if self_auto_approve && truthy decision_id
      then transition_decision_body decision_id "approved" PNone
      else ret tt) ;;;
     ret decision_id)
    (fun e => logger_error (FailedToLog e) ;;; ret PNone).
End Client.

(** ** crewai/contextgraph_observer.py *)
Module Crewai.
Record observer := {
  crew_id : string;
  log_tool_calls : bool;
  log_agent_thoughts : bool;
  auto_approve : bool;
  metadata : dict
}.

Section Hooks.
Context (I : interp) (R : remote) (self : observer).

Definition _log_decision : string -> value -> dict -> value -> M value :=
  log_decision_body I R (crew_id self) "crewai" (Some "reference_id")
    (auto_approve self) (metadata self).

Definition _transition_decision : value -> string -> value -> M unit :=
  transition_decision_body I R.

(** The [context=] argument of [on_task_start]. *)
Definition task_context (task agent : value) : result dict :=
  let agent_name := getattr_default I agent "role" (PStr "unknown_agent") in
  rbind (slice_of I 500 (getattr_default I task "description" (PStr "")))
    (fun task_description =>
  rbind (slice_of I 500 (getattr_default I task "expected_output" (PStr "")))
    (fun expected_output =>
  Ok [("task_description", task_description);
      ("expected_output", expected_output);
      ("agent_name", agent_name);
      ("agent_goal", getattr_default I agent "goal" PNone)])).

Definition on_task_start (task agent : value) : M unit :=
  let task_id := id_str I task in
  context <- lift (task_context task agent) ;;
  decision_id <- _log_decision "task_execution" (PStr "execute_task")
                   context (PStr task_id) ;;
  if truthy decision_id then put task_id decision_id else ret tt.

Definition on_task_end (task output : value) : M unit :=
  let task_id := id_str I task in
  decision_id <- pop task_id ;;
  if truthy decision_id
  then text <- lift (text_or_none I 5000 output) ;;
       _transition_decision decision_id "executed"
         (PDict [("output", text)])
  else ret tt.

Definition on_task_error (task error : value) : M unit :=
  let task_id := id_str I task in
  decision_id <- pop task_id ;;
  if truthy decision_id
  then _transition_decision decision_id "failed"
         (PDict [("error", PStr (to_str I error))])
  else ret tt.

(** [f"{agent_name}_{id(agent)}"] *)
Definition agent_key (agent : value) : string :=
  to_str I (getattr_default I agent "role" (PStr "unknown_agent"))
    +:+ "_" +:+ id_str I agent.

(** The [context=] argument of [on_agent_action]. *)
Definition action_context (agent action action_input : value) : result dict :=
  let agent_name := getattr_default I agent "role" (PStr "unknown_agent") in
  rbind (serialize I action_input) (fun serialized_input =>
  Ok [("agent_name", agent_name);
      ("action", action);
      ("action_input", serialized_input)]).

Definition on_agent_action (agent action action_input : value) : M unit :=
  let agent_id := agent_key agent in
  context <- lift (action_context agent action action_input) ;;
  decision_id <- _log_decision "agent_action" action context (PStr agent_id) ;;
  if truthy decision_id then put ("action_" +:+ agent_id) decision_id
  else ret tt.

Definition on_agent_finish (agent output : value) : M unit :=
  let agent_id := agent_key agent in
  decision_id <- pop ("action_" +:+ agent_id) ;;
  if truthy decision_id
  then serialized_output <- lift (serialize I output) ;;
       _transition_decision decision_id "executed"
         (PDict [("output", serialized_output)])
  else ret tt.

Definition on_tool_use (agent tool_name tool_input tool_output : value)
    : M unit :=
  if negb (log_tool_calls self) then ret tt
  else
    let agent_name := getattr_default I agent "role" (PStr "unknown_agent") in
    serialized_input <- lift (serialize I tool_input) ;;
    serialized_output <- lift (rbind (serialize I tool_output) (slice_to 2000)) ;;
    decision_id <- _log_decision "tool_usage" tool_name
                     [("agent_name", agent_name);
                      ("tool_name", tool_name);
                      ("tool_input", serialized_input);
                      ("tool_output", serialized_output)]
                     PNone ;;
    if truthy decision_id
    then _transition_decision decision_id "executed" PNone
    else ret tt.

Definition on_tool_error (agent tool_name tool_input error : value)
    : M unit :=
  if negb (log_tool_calls self) then ret tt
  else
    let agent_name := getattr_default I agent "role" (PStr "unknown_agent") in
    serialized_input <- lift (serialize I tool_input) ;;
    decision_id <- _log_decision "tool_usage" tool_name
                     [("agent_name", agent_name);
                      ("tool_name", tool_name);
                      ("tool_input", serialized_input)]
                     PNone ;;
    if truthy decision_id
    then _transition_decision decision_id "failed"
           (PDict [("error", PStr (to_str I error))])
    else ret tt.

Definition on_agent_thought (agent thought : value) : M unit :=
  if negb (log_agent_thoughts self) then ret tt
  else
    let agent_name := getattr_default I agent "role" (PStr "unknown_agent") in
    cut <- lift (slice_of I 2000 thought) ;;
    _log_decision "agent_reasoning" (PStr "think")
      [("agent_name", agent_name); ("thought", cut)] PNone ;;;
    ret tt.
(** The list comprehension over [crew.agents] in [on_crew_start]. *)
Definition crew_agents (crew : value) : result (list value) :=
  if hasattr I crew "agents" then
    rbind (attr I crew "agents") (fun agents =>
    rbind (iterate agents) (mapM (fun a =>
      rbind (attr I a "role") (fun role =>
      Ok (PDict [("name", role);
                 ("goal", getattr_default I a "goal" PNone)])))))
  else Ok [].

(** The list comprehension over [crew.tasks] in [on_crew_start]. *)
Definition crew_tasks (crew : value) : result (list value) :=
  if hasattr I crew "tasks" then
    rbind (attr I crew "tasks") (fun tasks =>
    rbind (iterate tasks) (mapM (fun t =>
      rbind (attr I t "description") (fun description =>
      rbind (truth I description) (fun t =>
      rbind (if t then slice_of I 200 description else Ok PNone)
        (fun cut => Ok (PDict [("description", cut)])))))))
  else Ok [].

(** The [context=] argument of [on_crew_start]. *)
Definition crew_context (crew : value) : result dict :=
  rbind (crew_agents crew) (fun agents =>
  rbind (crew_tasks crew) (fun tasks =>
  Ok [("crew_name", getattr_default I crew "name" (PStr "unnamed_crew"));
      ("agents", PList agents);
      ("tasks", PList tasks);
      ("num_agents", PInt (Z.of_nat (length agents)));
      ("num_tasks", PInt (Z.of_nat (length tasks)))])).

(** The crew hooks read and write the field [self._crew_decision_id]; the
    field is passed in and its new value is returned.  When a hook raises the
    field keeps its value. *)
Definition on_crew_start (crew : value) : M value :=
  context <- lift (crew_context crew) ;;
  _log_decision "crew_execution" (PStr "start_crew") context PNone.



End Hooks.
End Crewai.

(** ** langchain/contextgraph_callback.py *)
Module Callback.
Record handler := {
  agent_id : string;
  log_llm_calls : bool;
  log_chain_calls : bool;
  auto_approve : bool;
  metadata : dict
}.

(** [langchain_core.agents.AgentAction] and [AgentFinish], by the fields
    the handler reads. *)
Record AgentAction := { tool : value; tool_input : value; log : value }.
Record AgentFinish := { return_values : value; finish_log : value }.

Section Hooks.
Context (I : interp) (R : remote) (self : handler).

Definition _log_decision : string -> value -> dict -> value -> M value :=
  log_decision_body I R (agent_id self) "langchain" (Some "run_id")
    (auto_approve self) (metadata self).

Definition _transition_decision : value -> string -> value -> M unit :=
  transition_decision_body I R.

(** The [context=] argument of [on_agent_action]. *)
Definition action_context (action : AgentAction) : result dict :=
  rbind (serialize I (tool_input action)) (fun serialized_input =>
  Ok [("tool", tool action);
      ("tool_input", serialized_input);
      ("reasoning", log action)]).

(** [run_id] is [str(run_id)], the text of the UUID the host passes. *)
Definition on_agent_action (action : AgentAction) (run_id : string) : M unit :=
  context <- lift (action_context action) ;;
  decision_id <- _log_decision "tool_invocation" (tool action)
                   context (PStr run_id) ;;
  if truthy decision_id then put run_id decision_id else ret tt.

Definition on_agent_finish (finish : AgentFinish) (run_id : string) : M unit :=
  decision_id <- pop run_id ;;
  if truthy decision_id
  then serialized_output <- lift (serialize I (return_values finish)) ;;
       _transition_decision decision_id "executed"
         (PDict [("output", serialized_output); ("log", finish_log finish)])
  else ret tt.

(** The [context=] argument of [on_tool_start]. *)
Definition tool_context (serialized : dict) (input_str tags metadata inputs : value)
    : result dict :=
  let tool_name := default (PStr "unknown_tool") (dict_get "name" serialized) in
  rbind (serialize I inputs) (fun serialized_inputs =>
  Ok [("tool", tool_name);
      ("input", input_str);
      ("inputs", serialized_inputs);
      ("tags", tags);
      ("metadata", metadata)]).

Definition on_tool_start (serialized : dict) (input_str : value)
    (run_id : string) (tags metadata inputs : value) : M unit :=
  let tool_name := default (PStr "unknown_tool") (dict_get "name" serialized) in
  context <- lift (tool_context serialized input_str tags metadata inputs) ;;
  decision_id <- _log_decision "tool_execution" tool_name context (PStr run_id) ;;
  if truthy decision_id then put run_id decision_id else ret tt.

Definition on_tool_end (output : value) (run_id : string) : M unit :=
  decision_id <- pop run_id ;;
  if truthy decision_id
  then _transition_decision decision_id "executed" (PDict [("output", output)])
  else ret tt.

Definition on_tool_error (error : value) (run_id : string) : M unit :=
  decision_id <- pop run_id ;;
  if truthy decision_id
  then _transition_decision decision_id "failed"
         (PDict [("error", PStr (to_str I error))])
  else ret tt.
(** [langchain_core.outputs.LLMResult], by the fields the handler reads. *)
Record LLMResult := { generations : value; llm_output : value }.

Definition on_llm_start (serialized : dict) (prompts : value)
    (run_id : string) (tags metadata : value) : M unit :=
  if negb (log_llm_calls self) then ret tt
  else
    let model_name := default (PStr "unknown_model") (dict_get "name" serialized) in
    decision_id <- _log_decision "llm_call" model_name
                     [("model", model_name);
                      ("prompts", prompts);
                      ("tags", tags);
                      ("metadata", metadata)]
                     (PStr run_id) ;;
    if truthy decision_id then put run_id decision_id else ret tt.

(** [[[g.text for g in gen] for gen in response.generations]] *)
Definition generation_texts (response : LLMResult) : result value :=
  rbind (iterate (generations response)) (fun gens =>
  rbind (mapM (fun gen =>
           rbind (iterate gen) (fun gs =>
           rbind (mapM (fun g => attr I g "text") gs) (fun texts =>
           Ok (PList texts)))) gens)
    (fun rows => Ok (PList rows))).

Definition on_llm_end (response : LLMResult) (run_id : string) : M unit :=
  if negb (log_llm_calls self) then ret tt
  else
    decision_id <- pop run_id ;;
    if truthy decision_id
    then texts <- lift (generation_texts response) ;;
         _transition_decision decision_id "executed"
           (PDict [("generations", texts);
                   ("llm_output", llm_output response)])
    else ret tt.

Definition on_llm_error (error : value) (run_id : string) : M unit :=
  if negb (log_llm_calls self) then ret tt
  else
    decision_id <- pop run_id ;;
    if truthy decision_id
    then _transition_decision decision_id "failed"
           (PDict [("error", PStr (to_str I error))])
    else ret tt.

Definition on_chain_end (outputs : value) (run_id : string) : M unit :=
  if negb (log_chain_calls self) then ret tt
  else
    decision_id <- pop run_id ;;
    if truthy decision_id
    then serialized_outputs <- lift (serialize I outputs) ;;
         _transition_decision decision_id "executed"
           (PDict [("outputs", serialized_outputs)])
    else ret tt.

Definition on_chain_error (error : value) (run_id : string) : M unit :=
  if negb (log_chain_calls self) then ret tt
  else
    decision_id <- pop run_id ;;
    if truthy decision_id
    then _transition_decision decision_id "failed"
           (PDict [("error", PStr (to_str I error))])
    else ret tt.

End Hooks.
End Callback.

(** ** langchain/contextgraph_middleware.py *)
Module Middleware.
Record ContextGraphClient := {
  agent_id : string;
  auto_approve : bool;
  metadata : dict
}.

Section Client.
Context (I : interp) (R : remote) (self : ContextGraphClient).

Definition log_decision (decision_type : string) (action : value)
    (context : dict) : M value :=
  log_decision_body I R (agent_id self) "langchain-v1" None
    (auto_approve self) (metadata self) decision_type action context PNone.

Definition transition_decision : value -> string -> value -> M unit :=
  transition_decision_body I R.
End Client.
(** The hooks that [contextgraph_middleware] builds around one client and
    one table [active_decisions].  [describe] is [str(e)] on exceptions. *)
Section Hooks.
Context (I : interp) (R : remote) (self : ContextGraphClient)
        (describe : exn -> string).

(** The [context=] argument of [log_model_start]. *)
Definition model_context (state : dict) : result dict :=
  let messages := default (PList []) (dict_get "messages" state) in
  rbind (py_len I messages) (fun message_count =>
  rbind (last_str_or_none I messages) (fun last_message =>
  Ok [("message_count", message_count);
      ("last_message", last_message)])).

Definition log_model_start (state : dict) : M unit :=
  context <- lift (model_context state) ;;
  decision_id <- log_decision I R self "model_call" (PStr "invoke_model") context ;;
  if truthy decision_id then put "model" decision_id else ret tt.

Definition log_model_end (state : dict) : M unit :=
  decision_id <- pop "model" ;;
  if truthy decision_id
  then
    let messages := default (PList []) (dict_get "messages" state) in
    response <- lift (last_str_or_none I messages) ;;
    transition_decision I R decision_id "executed"
      (PDict [("response", response)])
  else ret tt.

(** [log_tool_execution] is a generator: it runs up to [yield tool_call],
    the host runs the tool, and the generator is resumed with the result of
    the tool or with the exception the tool raised.  The first function is
    the part before the [yield] and returns the local [decision_id]; the
    second is the part after it, [yielded] being what the [yield] expression
    evaluates or raises to. *)
Definition log_tool_execution_before (tool_call : dict) : M value :=
  let tool_name := default (PStr "unknown_tool") (dict_get "name" tool_call) in
  let tool_input := default (PDict []) (dict_get "args" tool_call) in
  serialized_input <- lift (serialize I tool_input) ;;
  log_decision I R self "tool_execution" tool_name
    [("tool_name", tool_name); ("tool_input", serialized_input)].

Definition log_tool_execution_resume (decision_id : value)
    (yielded : result value) : M value :=
  try_except
    (result <- lift yielded ;;
     (if truthy decision_id
      then serialized_result <- lift (serialize I result) ;;
           transition_decision I R decision_id "executed"
             (PDict [("output", serialized_result)])
      else ret tt) ;;;
     ret result)
    (fun e =>
       (if truthy decision_id
        then transition_decision I R decision_id "failed"
               (PDict [("error", PStr (describe e))])
        else ret tt) ;;;
       raise e).
End Hooks.
End Middleware.

(** ** Construction

    The constructors resolve the API key and the agent id from their
    arguments and from the environment, raise [ValueError] when one is
    missing, and then build the HTTP client.  [httpx.Client] is library
    code: the constructors take as [client_accepts] whether it accepts a
    base URL and a key, and what it raises when it does not (an
    [InvalidURL] on a malformed URL, for one) is [ClientRefused]. *)

(** What a constructor raises: its two [ValueError]s, and what
    [httpx.Client] raises. *)
Inductive config_error :=
| MissingApiKey
| MissingAgentId
| ClientRefused.

(** [not x] for an optional string: [None] and the empty string are falsy. *)
Definition unset (x : option string) : bool :=
  match x with
  | Some s => String.eqb s ""
  | None => true
  end.

(** [a or b] *)
Definition py_or (a b : option string) : option string :=
  if unset a then b else a.

(** [s.rstrip("/")] *)
Fixpoint rstrip_slash (s : string) : string :=
  match s with
  | EmptyString => EmptyString
  | String c rest =>
      match rstrip_slash rest with
      | EmptyString => if Ascii.eqb c "/"%char then EmptyString else String c EmptyString
      | kept => String c kept
      end
  end.

(** [metadata or {}] *)
Definition metadata_or_empty (metadata : option dict) : dict := default [] metadata.

(** What a constructor leaves on the instance beside the fields of the
    adapter record: the key and the base URL given to [httpx.Client]. *)
Record configured (A : Type) := {
  api_key : string;
  api_url : string;
  instance : A
}.
Arguments api_key {A} c.
Arguments api_url {A} c.
Arguments instance {A} c.

(** [ContextGraphObserver.__init__] (observer l.61). *)
Definition observer_init (client_accepts : string -> string -> bool)
    (environ : string -> option string)
    (api_key crew_id : option string) (api_url : string)
    (log_tool_calls log_agent_thoughts auto_approve : bool)
    (metadata : option dict) : config_error + configured Crewai.observer :=
  let api_key := py_or api_key (environ "CG_API_KEY") in
  let crew_id := py_or crew_id (environ "CG_CREW_ID") in
  if unset api_key then inl MissingApiKey
  else if unset crew_id then inl MissingAgentId
  else if negb (client_accepts (rstrip_slash api_url) (default "" api_key))
  then inl ClientRefused
  else inr {| api_key := default "" api_key;
              api_url := rstrip_slash api_url;
              instance := {| Crewai.crew_id := default "" crew_id;
                             Crewai.log_tool_calls := log_tool_calls;
                             Crewai.log_agent_thoughts := log_agent_thoughts;
                             Crewai.auto_approve := auto_approve;
                             Crewai.metadata := metadata_or_empty metadata |} |}.

(** [ContextGraphCallback.__init__] (callback l.54). *)
Definition handler_init (client_accepts : string -> string -> bool)
    (environ : string -> option string)
    (api_key agent_id : option string) (api_url : string)
    (log_llm_calls log_chain_calls auto_approve : bool)
    (metadata : option dict) : config_error + configured Callback.handler :=
  let api_key := py_or api_key (environ "CG_API_KEY") in
  let agent_id := py_or agent_id (environ "CG_AGENT_ID") in
  if unset api_key then inl MissingApiKey
  else if unset agent_id then inl MissingAgentId
  else if negb (client_accepts (rstrip_slash api_url) (default "" api_key))
  then inl ClientRefused
  else inr {| api_key := default "" api_key;
              api_url := rstrip_slash api_url;
              instance := {| Callback.agent_id := default "" agent_id;
                             Callback.log_llm_calls := log_llm_calls;
                             Callback.log_chain_calls := log_chain_calls;
                             Callback.auto_approve := auto_approve;
                             Callback.metadata := metadata_or_empty metadata |} |}.

(** The resolution at the head of [contextgraph_middleware] (middleware
    l.158) followed by [ContextGraphClient.__init__] (l.38), which checks
    nothing itself and builds the HTTP client. *)
Definition middleware_init (client_accepts : string -> string -> bool)
    (environ : string -> option string)
    (api_key agent_id : option string) (api_url : string)
    (auto_approve : bool) (metadata : option dict)
    : config_error + configured Middleware.ContextGraphClient :=
  let resolved_api_key := py_or api_key (environ "CG_API_KEY") in
  let resolved_agent_id := py_or agent_id (environ "CG_AGENT_ID") in
  if unset resolved_api_key then inl MissingApiKey
  else if unset resolved_agent_id then inl MissingAgentId
  else if negb (client_accepts (rstrip_slash api_url)
                  (default "" resolved_api_key))
  then inl ClientRefused
  else inr {| api_key := default "" resolved_api_key;
              api_url := rstrip_slash api_url;
              instance := {| Middleware.agent_id := default "" resolved_agent_id;
                             Middleware.auto_approve := auto_approve;
                             Middleware.metadata := metadata_or_empty metadata |} |}.

(** ** Reading a run

    What a reply of the store comes to for the two client operations; the
    lemmas [log_decision_run] and [transition_run] below show that the code
    reads replies this way. *)

(** The exception that a reply to a creation request raises inside the [try]
    block of [_log_decision], or the value found under ["id"]. *)
Definition created (o : outcome) : exn + value :=
  match o with
  | Fails e => inl e
  | Responds status body =>
      if is_success status then
        match body with
        | Some (PDict d) => inr (default PNone (dict_get "id" d))
        | Some _ => inl AttributeError
        | None => inl JSONDecodeError
        end
      else inl (HTTPStatusError status)
  end.

(** The exception that a reply to a transition request raises inside the
    [try] block of [_transition_decision], if any. *)
Definition transition_failure (o : outcome) : option exn :=
  match o with
  | Fails e => Some e
  | Responds status _ =>
      if is_success status then None else Some (HTTPStatusError status)
  end.

Definition creation_request (agent : string) (decision_type : string)
    (action : value) (context : dict) : request :=
  {| url := "/v1/decisions";
     json := [("agent_id", PStr agent);
              ("type", PStr decision_type);
              ("action", action);
              ("status", PStr "proposed");
              ("context", PDict context)] |}.

Definition transition_request (I : interp) (decision_id : value)
    (status : string) (result : value) : request :=
  {| url := transition_url I decision_id;
     json := if truthy result
             then [("status", PStr status); ("result", result)]
             else [("status", PStr status)] |}.

(** The first request of a list, if any. *)
Definition first_request (l : list request) : option request := head l.

(** The shape every start hook that files its decision has: build the
    context, propose, store the id when there is one. *)
Definition unit_start (key : string) (context : result dict)
    (propose : dict -> M value) : M unit :=
  context <- lift context ;;
  decision_id <- propose context ;;
  if truthy decision_id then put key decision_id else ret tt.

(** The shape every end or error hook has: take the id, and when there is
    one build the result (which may raise, when it serializes an output) and
    move the decision to [status]. *)
Definition unit_finish (I : interp) (R : remote) (key : string)
    (status : string) (result : result value) : M unit :=
  decision_id <- pop key ;;
  if truthy decision_id
  then result <- lift result ;;
       transition_decision_body I R decision_id status result
  else ret tt.

(** A propose call never touches the table. *)
Definition leaves_table (propose : dict -> M value) : Prop :=
  forall c w, exists v w', propose c w = (Ok v, w') /\ active w' = active w.

(** The id that the propose call of a start hook returns from state [w];
    [None] when the hook raises before it proposes. *)
Definition proposed_id (context : result dict) (propose : dict -> M value)
    (w : world) : option value :=
  match context with
  | Ok c => match fst (propose c w) with
            | Ok d => Some d
            | Raise _ => None
            end
  | Raise _ => None
  end.

(** One unit of work under [key]: the start hook, then an end or error hook,
    then a second end or error hook for the same key.
    - at most one terminal transition is issued over the whole run;
    - the second hook issues nothing;
    - when propose returned an id, the start hook stored it under [key] and
      the first end or error hook issues exactly the terminal transition of
      that id, or nothing at all when it raises while it builds the result;
    - when propose returned nothing, the start hook stored nothing, and if
      [key] held no entry the end or error hook issues nothing. *)
Definition once_per_unit (I : interp) (key : string) (start : M unit)
    (proposed : world -> option value) (is_finish : M unit -> Prop) : Prop :=
  forall (w : world) (finish1 finish2 : M unit),
    is_finish finish1 -> is_finish finish2 ->
    let started := snd (start w) in
    let once := snd (finish1 started) in
    let twice := snd (finish2 once) in
    length (List.filter terminal (issued started twice)) <= 1 /\
    sent twice = sent once /\
    (forall d, proposed w = Some d -> truthy d = true ->
       active started !! key = Some d /\
       match fst (finish1 started) with
       | Ok _ => exists rq, issued started once = [rq] /\ terminal rq = true /\
                            url rq = transition_url I d
       | Raise _ => issued started once = []
       end) /\
    (forall d, proposed w = Some d -> truthy d = false ->
       active started = active w /\
       (active w !! key = None -> sent once = sent started)).

(** A start hook that files its decision under a key already taken replaces
    the entry: the table still has one entry for the key, the new id, and the
    next take returns that id and leaves nothing behind. *)
Definition overwrites (key : string) (start : M unit)
    (proposed : world -> option value) : Prop :=
  forall (w : world) (d1 d2 : value),
    active w !! key = Some d1 ->
    proposed w = Some d2 ->
    truthy d2 = true ->
    let w' := snd (start w) in
    active w' !! key = Some d2 /\
    dom (active w') = dom (active w) /\
    fst (pop key w') = Ok d2 /\
    fst (pop key (snd (pop key w'))) = Ok PNone.

(** A propose call returns, with the id of the reply or with [None], and a
    failure is logged. *)
Definition propose_returns (R : remote) (propose : M value) : Prop :=
  forall w : world, exists rq v w',
    propose w = (Ok v, w') /\
    first_request (issued w w') = Some rq /\
    url rq = "/v1/decisions" /\
    match created (http R (sent w) rq) with
    | inl e => v = PNone /\ issued w w' = [rq] /\
               errors w' = errors w ++ [FailedToLog e]
    | inr d => v = d
    end.

(** A transition call returns, and a failure is logged. *)
Definition transition_returns (R : remote) (decision_id : value)
    (transition : M unit) : Prop :=
  forall w : world, exists rq w',
    transition w = (Ok tt, w') /\
    issued w w' = [rq] /\
    active w' = active w /\
    errors w' = errors w ++
      match transition_failure (http R (sent w) rq) with
      | Some e => [FailedToTransition decision_id e]
      | None => []
      end.

(** The auto-approve policy of a propose call:
    - with the policy off the creation request is the only request sent;
    - with the policy on, an id that is truthy is approved right after the
      creation request and returned;
    - an id that is falsy ([None], 0, the empty string) is returned as it is
      and never approved, the policy on or off. *)
Definition auto_approve_policy (I : interp) (R : remote) (enabled : bool)
    (propose : M value) : Prop :=
  forall w : world, exists rq r w',
    propose w = (r, w') /\
    first_request (issued w w') = Some rq /\
    url rq = "/v1/decisions" /\
    (enabled = false -> issued w w' = [rq]) /\
    (enabled = true ->
       forall d, created (http R (sent w) rq) = inr d -> truthy d = true ->
         r = Ok d /\
         issued w w' = [rq; {| url := transition_url I d;
                               json := [("status", PStr "approved")] |}]) /\
    (forall d, created (http R (sent w) rq) = inr d -> truthy d = false ->
       r = Ok d /\ issued w w' = [rq]).

(** The creation request of a propose call. *)
Definition creation_request_shape (R : remote) (agent source : string)
    (metadata : dict) (decision_type : string) (action : value)
    (context : dict) (propose : M value) : Prop :=
  forall w : world, exists rq c,
    first_request (issued w (snd (propose w))) = Some rq /\
    url rq = "/v1/decisions" /\
    json rq = [("agent_id", PStr agent);
               ("type", PStr decision_type);
               ("action", action);
               ("status", PStr "proposed");
               ("context", PDict c)] /\
    dict_get "timestamp" c = Some (PStr (utcnow R (sent w))) /\
    dict_get "source" c = Some (PStr source) /\
    (forall k, In k (keys metadata) -> In k (keys c)) /\
    (forall k, In k (keys context) -> In k (keys c)).

(** The context as the sentence of the specification builds it: the caller's
    context, then the metadata, then the two generated fields, and nothing
    after them. *)
Definition merge_as_claimed (context metadata : dict) (timestamp source : string)
    : dict :=
  dict_set "source" (PStr source)
    (dict_set "timestamp" (PStr timestamp) (dict_update context metadata)).

(** The order in which the code fills the context of the creation request:
    the metadata over the caller's context, the two generated fields over
    both, and the reference key, when the call carries a reference, over
    everything. *)
Definition merge_order (R : remote) (source : string) (ref_key : option string)
    (metadata context : dict) (reference_id : value) (propose : M value) : Prop :=
  forall w : world, exists rq c,
    first_request (issued w (snd (propose w))) = Some rq /\
    dict_get "context" (json rq) = Some (PDict c) /\
    dict_get "timestamp" c = Some (PStr (utcnow R (sent w))) /\
    dict_get "source" c = Some (PStr source) /\
    (forall key, ref_key = Some key -> truthy reference_id = true ->
       dict_get key c = Some reference_id) /\
    (forall k v, dict_get k metadata = Some v ->
       k <> "timestamp" -> k <> "source" ->
       (truthy reference_id = true -> ref_key <> Some k) ->
       dict_get k c = Some v) /\
    (forall k, dict_get k metadata = None ->
       k <> "timestamp" -> k <> "source" ->
       (truthy reference_id = true -> ref_key <> Some k) ->
       dict_get k c = dict_get k context).

(** A hook that touches no entry of the table but the one under [key]. *)
Definition touches_only (key : string) (hook : M unit) : Prop :=
  forall (w : world) (other : string),
    other <> key -> active (snd (hook w)) !! other = active w !! other.

(** A hook that leaves the table as it found it. *)
Definition leaves_active {A} (hook : M A) : Prop :=
  forall w : world, active (snd (hook w)) = active w.

(** An end or error hook that takes the entry of [key] for good: after it
    the key is free, it has issued at most one terminal transition, and none
    when the key was free already. *)
Definition takes_once (key : string) (finish : M unit) : Prop :=
  forall w : world,
    active (snd (finish w)) !! key = None /\
    length (List.filter terminal (issued w (snd (finish w)))) <= 1 /\
    (active w !! key = None -> sent (snd (finish w)) = sent w).




(** [n] slashes. *)
Fixpoint slashes (n : nat) : string :=
  match n with
  | 0 => EmptyString
  | S n' => String "/"%char (slashes n')
  end.

(** The base URL a constructor keeps is the argument without its trailing
    slashes. *)
Definition strips_trailing_slashes (given kept : string) : Prop :=
  (exists n, given = kept +:+ slashes n) /\
  ~ (exists r, kept = r +:+ "/").

(** An environment with both variables of the observer. *)
Definition demo_environ (name : string) : option string :=
  if String.eqb name "CG_API_KEY" then Some "key-from-env"
  else if String.eqb name "CG_CREW_ID" then Some "crew-from-env"
  else None.

(** A start hook can raise only while it builds its context: it returns
    normally exactly when the context is built, and when it raises it raises
    what the context raised and has changed nothing. *)
Definition raises_only_before_proposing (context : result dict)
    (hook : M unit) : Prop :=
  forall w : world,
    (fst (hook w) = Ok tt <-> exists c, context = Ok c) /\
    (forall e, fst (hook w) = Raise e -> context = Raise e /\ snd (hook w) = w).

(** An end hook that builds its result after it has taken the entry: when
    the result raises, the hook raises, nothing is sent, and the entry is
    gone all the same. *)
Definition drops_entry_on_failure (key : string) (result : result value)
    (hook : M unit) : Prop :=
  forall (w : world) (d : value) (e : exn),
    active w !! key = Some d ->
    truthy d = true ->
    result = Raise e ->
    fst (hook w) = Raise e /\
    sent (snd (hook w)) = sent w /\
    errors (snd (hook w)) = errors w /\
    active (snd (hook w)) !! key = None.

(** ** Concrete stores and states used in the examples below *)

(** A store that accepts everything and numbers the decisions. *)
Definition echo_store : remote :=
  {| http := fun history _ =>
       Responds 200 (Some (PDict [("id", PStr (if Nat.eqb (length history) 0
                                               then "d1" else "d2"))]));
     utcnow := fun _ => "2024-05-01T12:00:00" |}.

(** A store that accepts everything and answers with an empty object. *)
Definition mute_store : remote :=
  {| http := fun _ _ => Responds 200 (Some (PDict []));
     utcnow := fun _ => "2024-05-01T12:00:00" |}.

(** A store that files every decision under the id 0. *)
Definition zero_store : remote :=
  {| http := fun _ _ => Responds 200 (Some (PDict [("id", PInt 0)]));
     utcnow := fun _ => "2024-05-01T12:00:00" |}.

(** A store that files the first decision it is asked for, as d1, cannot be
    reached for any creation request after that one, and accepts every
    transition. *)
Definition flaky_store : remote :=
  {| http := fun history rq =>
       if String.eqb (url rq) "/v1/decisions"
       then match history with
            | [] => Responds 200 (Some (PDict [("id", PStr "d1")]))
            | _ => Fails (TransportError "connection refused")
            end
       else Responds 200 (Some (PDict []));
     utcnow := fun _ => "2024-05-01T12:00:00" |}.

(** A store that cannot be reached. *)
Definition down_store : remote :=
  {| http := fun _ _ => Fails (TransportError "connection refused");
     utcnow := fun _ => "2024-05-01T12:00:00" |}.

Definition idle : world := {| sent := []; errors := []; active := ∅ |}.

Definition demo_observer : Crewai.observer :=
  {| Crewai.crew_id := "crew";
     Crewai.log_tool_calls := true;
     Crewai.log_agent_thoughts := true;
     Crewai.auto_approve := true;
     Crewai.metadata := [("env", PStr "test")] |}.

Definition demo_handler : Callback.handler :=
  {| Callback.agent_id := "agent";
     Callback.log_llm_calls := false;
     Callback.log_chain_calls := true;
     Callback.auto_approve := false;
     Callback.metadata := [] |}.

(** ** Concrete hosts used in the examples below *)

Definition plain_object : object :=
  {| obj_class := []; obj_vars := None; obj_call := None |}.

(** A host with no object of interest. *)
Definition bare_host : interp :=
  {| heap := fun _ => plain_object;
     display := fun _ => "<object>";
     identity := fun _ => 1%Z;
     recursion_limit := 1000 |}.

(** A task started twice against [flaky_store]: the state after the first
    [on_task_start], whose decision the store files as d1, and the state
    after the second, whose propose call fails. *)
Definition started_once : world :=
  snd (Crewai.on_task_start bare_host flaky_store demo_observer
         (PObj 5) (PObj 6) idle).

Definition started_again : world :=
  snd (Crewai.on_task_start bare_host flaky_store demo_observer
         (PObj 5) (PObj 6) started_once).

(** Objects that answer for themselves: the class of object 0 renders it
    with a [__str__] that raises, the class of object 2 gives it the
    length 0 (an empty set, say), and the class of object 4 lets it be
    subscripted (a byte string, say), the result being object 4 again.
    Object 6 is a task whose description is object 4. *)
Definition fussy_host : interp :=
  {| heap := fun a =>
       match a with
       | 0 => {| obj_class := [("__str__", PObj 1)];
                 obj_vars := None; obj_call := None |}
       | 1 => {| obj_class := []; obj_vars := None;
                 obj_call := Some (Raise ValueError) |}
       | 2 => {| obj_class := [("__len__", PObj 3)];
                 obj_vars := None; obj_call := None |}
       | 3 => {| obj_class := []; obj_vars := None;
                 obj_call := Some (Ok (PInt 0)) |}
       | 4 => {| obj_class := [("__getitem__", PObj 5)];
                 obj_vars := None; obj_call := None |}
       | 5 => {| obj_class := []; obj_vars := None;
                 obj_call := Some (Ok (PObj 4)) |}
       | 6 => {| obj_class := [];
                 obj_vars := Some [("description", PObj 4)];
                 obj_call := None |}
       | _ => plain_object
       end;
     display := fun _ => "<object>";
     identity := fun _ => 1%Z;
     recursion_limit := 1000 |}.

(** Object 0 keeps a reference to itself in its attribute bag:
    [o.me = o]. *)
Definition cyclic_host : interp :=
  {| heap := fun a =>
       match a with
       | 0 => {| obj_class := []; obj_vars := Some [("me", PObj 0)];
                 obj_call := None |}
       | _ => plain_object
       end;
     display := fun _ => "<object>";
     identity := fun _ => 1%Z;
     recursion_limit := 1000 |}.


(** Object 0 is a model with a working export [dict()] (object 1 is the bound
    method) that returns a mapping holding a tuple and an opaque object 2. *)
Definition model_host : interp :=
  {| heap := fun a =>
       match a with
       | 0 => {| obj_class := [("dict", PObj 1)]; obj_vars := Some [("x", PInt 3)];
                 obj_call := None |}
       | 1 => {| obj_class := []; obj_vars := None;
                 obj_call := Some (Ok (PDict [("pair", PTuple [PInt 1; PObj 2])])) |}
       | _ => plain_object
       end;
     display := fun _ => "<object>";
     identity := fun _ => 1%Z;
     recursion_limit := 1000 |}.

(** Object 0 is a crew with two agents, objects 1 and 2, and one task,
    object 3; agent 2 has no [role]. *)
Definition crew_host : interp :=
  {| heap := fun a =>
       match a with
       | 0 => {| obj_class := [];
                 obj_vars := Some [("name", PStr "research");
                                   ("agents", PList [PObj 1; PObj 2]);
                                   ("tasks", PList [PObj 3])];
                 obj_call := None |}
       | 1 => {| obj_class := [];
                 obj_vars := Some [("role", PStr "writer"); ("goal", PStr "write")];
                 obj_call := None |}
       | 2 => {| obj_class := []; obj_vars := Some [("goal", PStr "review")];
                 obj_call := None |}
       | 3 => {| obj_class := []; obj_vars := Some [("description", PStr "draft")];
                 obj_call := None |}
       | _ => plain_object
       end;
     display := fun _ => "<object>";
     identity := fun _ => 1%Z;
     recursion_limit := 1000 |}.

(** * Properties *)

(** ** Dicts *)

Lemma dict_get_set_eq k v d : dict_get k (dict_set k v d) = Some v.
Proof.
  induction d as [|[k' v'] d IH]; simpl.
  - by rewrite String.eqb_refl.
  - destruct (String.eqb k k') eqn:E; simpl; rewrite E; done.
Qed.

Lemma dict_get_set_ne k k' v d :
  k <> k' -> dict_get k' (dict_set k v d) = dict_get k' d.
Proof.
  intros Hne. induction d as [|[k0 v0] d IH]; simpl.
  - destruct (String.eqb k' k) eqn:E; [|done].
    apply String.eqb_eq in E. congruence.
  - destruct (String.eqb k k0) eqn:E; simpl.
    + apply String.eqb_eq in E. subst k0.
      destruct (String.eqb k' k) eqn:E'; [|done].
      apply String.eqb_eq in E'. congruence.
    + by rewrite IH.
Qed.

Lemma dict_get_in_keys k d : is_Some (dict_get k d) <-> In k (keys d).
Proof.
  induction d as [|[k' v'] d IH]; simpl.
  - split; [intros [? ?]; done | done].
  - destruct (String.eqb k k') eqn:E.
    + apply String.eqb_eq in E. subst. split; [by left | by eexists].
    + apply String.eqb_neq in E. rewrite IH. split; [by right|].
      intros [?|?]; [congruence | done].
Qed.

Lemma dict_set_keeps_keys k k' v d : In k' (keys d) -> In k' (keys (dict_set k v d)).
Proof.
  intros Hin. apply dict_get_in_keys.
  destruct (decide (k = k')) as [->|Hne].
  - rewrite dict_get_set_eq. by eexists.
  - rewrite dict_get_set_ne by done. by apply dict_get_in_keys.
Qed.

Lemma dict_get_snoc k k' v' (d : dict) :
  dict_get k (d ++ [(k', v')]) =
    match dict_get k d with
    | Some v => Some v
    | None => if String.eqb k k' then Some v' else None
    end.
Proof.
  induction d as [|[k0 v0] d IH]; simpl; [done|].
  destruct (String.eqb k k0); done.
Qed.

(** Lookup after [{**d, **extra}]: the last binding of [extra] wins, then
    [d]. *)
Lemma dict_get_update k d extra :
  dict_get k (dict_update d extra) =
    match dict_get k (reverse extra) with
    | Some v => Some v
    | None => dict_get k d
    end.
Proof.
  unfold dict_update. revert d.
  induction extra as [|[k' v'] extra IH]; intros d; simpl; [done|].
  rewrite IH, reverse_cons.
  rewrite dict_get_snoc. destruct (dict_get k (reverse extra)); [done|].
  destruct (String.eqb k k') eqn:E.
  - apply String.eqb_eq in E. subst. apply dict_get_set_eq.
  - apply String.eqb_neq in E. apply dict_get_set_ne. congruence.
Qed.

(** With pairwise distinct keys, as in any Python dict, lookup does not
    depend on the order of the pairs. *)
Lemma dict_get_reverse k (d : dict) :
  NoDup (keys d) -> dict_get k (reverse d) = dict_get k d.
Proof.
  induction d as [|[k' v'] d IH]; simpl; [done|].
  intros Hnd. apply NoDup_cons in Hnd as [Hnotin Hnd].
  rewrite reverse_cons.
  rewrite dict_get_snoc, IH by done.
  destruct (String.eqb k k') eqn:E.
  - apply String.eqb_eq in E. subst k'.
    destruct (dict_get k d) eqn:G; [|done].
    exfalso. apply Hnotin. apply list_elem_of_In, dict_get_in_keys. by eexists.
  - by destruct (dict_get k d).
Qed.

Lemma dict_update_merges k d extra :
  NoDup (keys extra) ->
  dict_get k (dict_update d extra) =
    match dict_get k extra with
    | Some v => Some v
    | None => dict_get k d
    end.
Proof. intros Hnd. by rewrite dict_get_update, dict_get_reverse. Qed.

(** ** The serializer *)

Lemma mapM_fixes {A} (f : A -> result A) (l : list A) :
  (forall x, In x l -> f x = Ok x) -> mapM f l = Ok l.
Proof.
  induction l as [|x l IH]; simpl; [done|].
  intros H. rewrite (H x) by auto. simpl. rewrite IH by auto. done.
Qed.

Lemma mapM_ext_in {A B} (f g : A -> result B) (l : list A) :
  (forall x, In x l -> f x = g x) -> mapM f l = mapM g l.
Proof.
  induction l as [|x l IH]; simpl; [done|].
  intros H. rewrite (H x) by auto. rewrite IH by auto. done.
Qed.


Lemma mapM_returned {A B} (f : A -> result B) (l : list A) ys :
  mapM f l = Ok ys -> forall x, In x l -> exists y, f x = Ok y.
Proof.
  revert ys. induction l as [|x l IH]; simpl; [done|].
  intros ys H x' Hin.
  destruct (f x) as [y|e] eqn:Hx; simpl in H; [|done].
  destruct (mapM f l) as [ys'|e] eqn:Hl; simpl in H; [|done].
  destruct Hin as [<-|Hin]; [by eexists | by eapply IH].
Qed.

Lemma nesting_pos v : 1 <= nesting v.
Proof. destruct v; simpl; lia. Qed.

Lemma foldr_max_bound {A} (f : A -> nat) (l : list A) m :
  foldr (fun x n => Nat.max (f x) n) 0 l <= m ->
  forall x, In x l -> f x <= m.
Proof.
  induction l as [|y l IH]; simpl; [done|].
  intros Hle x [<-|Hin]; [lia|]. apply IH; [lia | done].
Qed.

(** On a value of JSON the serializer is the identity, given the calls its
    nesting needs. *)
Lemma serialize_json_safe (I : interp) depth v :
  json_safe v = true -> nesting v <= depth -> _serialize I depth v = Ok v.
Proof.
  revert v. induction depth as [|depth IH]; intros v Hsafe Hdepth.
  - pose proof (nesting_pos v). lia.
  - destruct v as [| | | | |vs|vs|kvs|a]; simpl in *; try done.
    + rewrite (mapM_fixes (_serialize I depth) vs); [done|].
      intros x Hin. apply IH.
      * rewrite forallb_forall in Hsafe. by apply Hsafe.
      * eapply (foldr_max_bound nesting); [|done]. lia.
    + rewrite (mapM_ext_in _ Ok kvs).
      * rewrite mapM_fixes; done.
      * intros [k x] Hin. simpl. rewrite IH; [done| |].
        -- rewrite forallb_forall in Hsafe. by apply (Hsafe (k, x)).
        -- apply (foldr_max_bound (fun kv => nesting (snd kv)) kvs depth
                    ltac:(lia) (k, x) Hin).
Qed.




(** Conversely, when the serializer returns it has walked such a graph. *)
Lemma serialize_returns_within (I : interp) n v j :
  _serialize I n v = Ok j -> within I n v.
Proof.
  revert v j. induction n as [|n IH]; intros v j H; [done|].
  destruct v as [| | | | |vs|vs|kvs|a]; try (by constructor); cbn [_serialize] in H.
  - constructor. intros x Hin.
    destruct (mapM (_serialize I n) vs) as [ys|] eqn:Hm; [|done].
    destruct (mapM_returned _ _ _ Hm x Hin) as (y & Hy). eauto.
  - constructor. intros x Hin.
    destruct (mapM (_serialize I n) vs) as [ys|] eqn:Hm; [|done].
    destruct (mapM_returned _ _ _ Hm x Hin) as (y & Hy). eauto.
  - constructor. intros kv Hin.
    match type of H with rbind ?m _ = _ => destruct m as [ys|] eqn:Hm end; [|done].
    destruct (mapM_returned _ _ _ Hm kv Hin) as (y & Hy).
    destruct (_serialize I n (snd kv)) eqn:Hs; [eauto | done].
  - unfold hasattr, call_method in H.
    destruct (getattr I (PObj a) "dict") as [export|] eqn:Hg.
    + destruct (call I export) as [exported|] eqn:Hc; simpl in H; [|done].
      eapply within_export; eauto.
    + destruct (vars I (PObj a)) as [bag|] eqn:Hv.
      * eapply within_bag; eauto.
      * by apply within_opaque.
Qed.

(** Once the allowed depth suffices, more of it changes nothing. *)
Lemma serialize_stable (I : interp) n v :
  within I n v -> forall depth, n <= depth -> _serialize I depth v = _serialize I n v.
Proof.
  revert v. induction n as [|n IH]; intros v H depth Hle; inversion H; subst;
    (destruct depth as [|depth]; [lia|]); cbn [_serialize]; try done.
  - rewrite (mapM_ext_in (_serialize I depth) (_serialize I n)); [done|].
    intros x Hin. apply IH; [auto | lia].
  - rewrite (mapM_ext_in (_serialize I depth) (_serialize I n)); [done|].
    intros x Hin. apply IH; [auto | lia].
  - f_equal. apply mapM_ext_in. intros kv Hin. rewrite IH; [done | auto | lia].
  - unfold hasattr, call_method;
    match goal with Hg : getattr _ _ _ = _ |- _ => rewrite Hg end.
    match goal with Hc : call _ _ = _ |- _ => rewrite Hc end. simpl.
    apply IH; [done | lia].
  - unfold hasattr, call_method;
    match goal with Hg : getattr _ _ _ = _ |- _ => rewrite Hg end.
    match goal with Hv : vars _ _ = _ |- _ => rewrite Hv end.
    apply IH; [done | lia].
  - unfold hasattr, call_method;
    match goal with Hg : getattr _ _ _ = _ |- _ => rewrite Hg end.
    match goal with Hv : vars _ _ = _ |- _ => rewrite Hv end. done.
Qed.


(** C6. On a value built only from None, strings, integers, floats,
    booleans, lists and string-keyed mappings of such values, the serializer
    returns that very value, and serializing what it returned returns it
    again.  [depth] is the number of nested calls the interpreter allows; any
    number that covers the nesting of the value will do. *)
Theorem serialize_idempotent_on_json (I : interp) (depth : nat) (v : value) :
  json_safe v = true ->
  nesting v <= depth ->
  _serialize I depth v = Ok v /\
  rbind (_serialize I depth v) (_serialize I depth) = Ok v.
Proof.
  intros Hsafe Hdepth.
  pose proof (serialize_json_safe I depth v Hsafe Hdepth) as H.
  split; [done|]. rewrite H. simpl. done.
Qed.

Lemma serialize_idempotent_on_json_witness :
  let v := PDict [("q", PStr "x"); ("n", PList [PInt 1; PNone; PBool true])] in
  _serialize bare_host 1000 v = Ok v /\
  rbind (_serialize bare_host 1000 v) (_serialize bare_host 1000) = Ok v.
Proof.
  apply (serialize_idempotent_on_json bare_host 1000); [reflexivity | simpl; lia].
Defined.




Lemma serialize_cycle_exhausts depth :
  _serialize cyclic_host depth (PObj 0) = Raise RecursionError /\
  _serialize cyclic_host depth (PDict [("me", PObj 0)]) = Raise RecursionError.
Proof.
  induction depth as [|depth [IHo IHd]]; [done|].
  split.
  - cbn [_serialize]. exact IHd.
  - cbn [_serialize mapM snd]. rewrite IHo. done.
Qed.




(** ** The two client operations *)

Lemma issued_app w w' l : sent w' = sent w ++ l -> issued w w' = l.
Proof. unfold issued. intros ->. by rewrite drop_app_length. Qed.

Lemma issued_same w w' : sent w' = sent w -> issued w w' = [].
Proof. intros H. apply issued_app. by rewrite app_nil_r. Qed.

(** What one call of [_transition_decision] does. *)
Lemma transition_run I R decision_id status result w :
  transition_decision_body I R decision_id status result w =
    (Ok tt,
     let rq := transition_request I decision_id status result in
     match transition_failure (http R (sent w) rq) with
     | Some e => record_error (FailedToTransition decision_id e) (record_sent rq w)
     | None => record_sent rq w
     end).
Proof.
  unfold transition_decision_body, transition_request, transition_failure,
    try_except, bind, post, raise_for_status, logger_error, ret, raise.
  destruct (truthy result); simpl;
    match goal with |- context [http R ?h ?rq] => destruct (http R h rq) end;
    simpl; try done;
    match goal with |- context [is_success ?st] => destruct (is_success st) end; done.
Qed.

(** What one call of [_log_decision] does. *)
Lemma log_decision_run I R agent source ref_key auto metadata
    decision_type action context reference_id w :
  log_decision_body I R agent source ref_key auto metadata
      decision_type action context reference_id w =
    let rq := creation_request agent decision_type action
                (proposed_context source ref_key metadata context
                   (utcnow R (sent w)) reference_id) in
    match created (http R (sent w) rq) with
    | inl e => (Ok PNone, record_error (FailedToLog e) (record_sent rq w))
    | inr d =>
        (Ok d,
         if auto && truthy d
         then snd (transition_decision_body I R d "approved" PNone (record_sent rq w))
         else record_sent rq w)
    end.
Proof.
  unfold log_decision_body, creation_request, created.
  unfold try_except at 1. unfold bind at 1. unfold now at 1. cbv beta iota.
  unfold bind at 1. unfold post at 1. cbv beta iota zeta.
  match goal with |- context [http R ?h ?rq] => destruct (http R h rq) as [e|status body] end.
  - reflexivity.
  - unfold bind at 1. unfold raise_for_status at 1. cbn [fst snd].
    destruct (is_success status); [|reflexivity].
    unfold ret at 1. cbv beta iota.
    unfold bind at 1. unfold response_json at 1. cbn [fst snd].
    destruct body as [decision|]; [|reflexivity].
    unfold ret at 1. cbv beta iota.
    unfold bind at 1. unfold get_method at 1.
    destruct decision; try reflexivity.
    unfold ret at 1. cbv beta iota.
    unfold bind at 1.
    destruct (auto && truthy (default PNone (dict_get "id" kvs))).
    + rewrite transition_run. reflexivity.
    + reflexivity.
Qed.

Lemma transition_effect I R decision_id status result w :
  let rq := transition_request I decision_id status result in
  let w' := snd (transition_decision_body I R decision_id status result w) in
  fst (transition_decision_body I R decision_id status result w) = Ok tt /\
  sent w' = sent w ++ [rq] /\
  active w' = active w /\
  errors w' = errors w ++
    match transition_failure (http R (sent w) rq) with
    | Some e => [FailedToTransition decision_id e]
    | None => []
    end.
Proof.
  rewrite transition_run. cbn [fst snd].
  destruct (transition_failure _); simpl; rewrite ?app_nil_r; done.
Qed.

Lemma log_decision_effect I R agent source ref_key auto metadata
    decision_type action context reference_id w :
  let rq := creation_request agent decision_type action
              (proposed_context source ref_key metadata context
                 (utcnow R (sent w)) reference_id) in
  exists v w',
    log_decision_body I R agent source ref_key auto metadata
      decision_type action context reference_id w = (Ok v, w') /\
    active w' = active w /\
    match created (http R (sent w) rq) with
    | inl e => v = PNone /\ sent w' = sent w ++ [rq] /\
               errors w' = errors w ++ [FailedToLog e]
    | inr d => v = d /\
               sent w' = sent w ++
                 rq :: (if auto && truthy d
                        then [transition_request I d "approved" PNone]
                        else [])
    end.
Proof.
  intros rq. rewrite log_decision_run. cbv zeta. fold rq.
  destruct (created (http R (sent w) rq)) as [e|d].
  - eexists _, _. split; [reflexivity|]. simpl. done.
  - eexists _, _. split; [reflexivity|].
    destruct (auto && truthy d).
    + destruct (transition_effect I R d "approved" PNone (record_sent rq w))
        as (_ & Hsent & Hactive & _).
      rewrite Hactive, Hsent. simpl. by rewrite <- app_assoc.
    + simpl. done.
Qed.

Lemma propose_returns_body I R agent source ref_key auto metadata
    decision_type action context reference_id :
  propose_returns R
    (log_decision_body I R agent source ref_key auto metadata
       decision_type action context reference_id).
Proof.
  intros w.
  destruct (log_decision_effect I R agent source ref_key auto metadata
              decision_type action context reference_id w)
    as (v & w' & Hrun & _ & Hcase).
  cbv zeta in Hcase.
  match type of Hcase with context [created (http R _ ?r)] => set (rq := r) in * end.
  exists rq, v, w'. split; [done|].
  destruct (created (http R (sent w) rq)) as [e|d].
  - destruct Hcase as (-> & Hsent & Herr).
    rewrite (issued_app w w' [rq] Hsent). done.
  - destruct Hcase as (-> & Hsent).
    rewrite (issued_app w w' _ Hsent). done.
Qed.

Lemma transition_returns_body I R decision_id status result :
  transition_returns R decision_id
    (transition_decision_body I R decision_id status result).
Proof.
  intros w.
  destruct (transition_effect I R decision_id status result w)
    as (Hfst & Hsent & Hactive & Herr).
  exists (transition_request I decision_id status result),
         (snd (transition_decision_body I R decision_id status result w)).
  split; [by rewrite <- Hfst; destruct (transition_decision_body _ _ _ _ _ _)|].
  split; [by apply issued_app|]. done.
Qed.

(** C2. [_log_decision] and [_transition_decision] return normally from
    every state and against every store, in the three adapters: the first
    with the id found in the reply or with [None], the second with nothing;
    when the call to the store fails (transport error, status outside 2xx,
    body that is not a JSON object), the failure is written to the log and
    [_log_decision] returns [None]. *)
Theorem propose_and_transition_always_return (I : interp) (R : remote) :
  (forall self decision_type action context reference_id,
     propose_returns R
       (Crewai._log_decision I R self decision_type action context reference_id)) /\
  (forall decision_id status result,
     transition_returns R decision_id
       (Crewai._transition_decision I R decision_id status result)) /\
  (forall self decision_type action context run_id,
     propose_returns R
       (Callback._log_decision I R self decision_type action context run_id)) /\
  (forall decision_id status result,
     transition_returns R decision_id
       (Callback._transition_decision I R decision_id status result)) /\
  (forall self decision_type action context,
     propose_returns R
       (Middleware.log_decision I R self decision_type action context)) /\
  (forall decision_id status result,
     transition_returns R decision_id
       (Middleware.transition_decision I R decision_id status result)).
Proof.
  repeat split; intros;
    first [ apply propose_returns_body | apply transition_returns_body ].
Qed.

Lemma auto_approve_policy_body I R agent source ref_key auto metadata
    decision_type action context reference_id :
  auto_approve_policy I R auto
    (log_decision_body I R agent source ref_key auto metadata
       decision_type action context reference_id).
Proof.
  intros w.
  destruct (log_decision_effect I R agent source ref_key auto metadata
              decision_type action context reference_id w)
    as (v & w' & Hrun & _ & Hcase).
  cbv zeta in Hcase.
  match type of Hcase with context [created (http R _ ?r)] => set (rq := r) in * end.
  exists rq, (Ok v), w'. split; [done|].
  assert (Hfirst : first_request (issued w w') = Some rq).
  { destruct (created (http R (sent w) rq)) as [e|d].
    - destruct Hcase as (_ & Hsent & _). by rewrite (issued_app w w' _ Hsent).
    - destruct Hcase as (_ & Hsent). by rewrite (issued_app w w' _ Hsent). }
  split; [done|]. split; [done|]. split.
  - intros ->. destruct (created (http R (sent w) rq)) as [e|d].
    + destruct Hcase as (_ & Hsent & _). by apply issued_app.
    + destruct Hcase as (_ & Hsent). by apply issued_app.
  - split.
    + intros -> d Hd Htruthy. rewrite Hd in Hcase.
      destruct Hcase as (-> & Hsent).
      rewrite Htruthy in Hsent. split; [done|]. by apply issued_app.
    + intros d Hd Hfalsy. rewrite Hd in Hcase.
      destruct Hcase as (-> & Hsent).
      rewrite Hfalsy, andb_false_r in Hsent. split; [done|]. by apply issued_app.
Qed.

(** C4, the claim as stated fails: the store files a decision under the id
    0 and propose returns that id, yet with [auto_approve] enabled the
    creation request is the only request sent.  The code approves on
    [if self.auto_approve and decision_id], and 0 is falsy. *)
Lemma zero_id_is_not_approved :
  Crewai.auto_approve demo_observer = true /\
  fst (Crewai._log_decision bare_host zero_store demo_observer
         "tool_usage" (PStr "search") [("q", PStr "x")] PNone idle)
    = Ok (PInt 0) /\
  map url
    (issued idle
       (snd (Crewai._log_decision bare_host zero_store demo_observer
               "tool_usage" (PStr "search") [("q", PStr "x")] PNone idle)))
    = ["/v1/decisions"].
Proof. split; [reflexivity|]. split; reflexivity. Qed.

(** C4, amended.  With [auto_approve] enabled, a propose call whose reply
    carries an id that is truthy sends the transition of that id to
    "approved" right after the creation request and before it returns, and
    it returns that id whatever the store answers to the approval (nothing
    is assumed of that answer).  An id that is falsy is returned without an
    approval.  With [auto_approve] disabled the creation request is the only
    request sent. *)
Theorem auto_approve_follows_propose (I : interp) (R : remote) :
  (forall self decision_type action context reference_id,
     auto_approve_policy I R (Crewai.auto_approve self)
       (Crewai._log_decision I R self decision_type action context reference_id)) /\
  (forall self decision_type action context run_id,
     auto_approve_policy I R (Callback.auto_approve self)
       (Callback._log_decision I R self decision_type action context run_id)) /\
  (forall self decision_type action context,
     auto_approve_policy I R (Middleware.auto_approve self)
       (Middleware.log_decision I R self decision_type action context)).
Proof.
  repeat split; intros; apply auto_approve_policy_body.
Qed.

Lemma auto_approve_follows_propose_witness :
  exists rq,
    issued idle
      (snd (Crewai._log_decision bare_host echo_store demo_observer
              "tool_usage" (PStr "search") [("q", PStr "x")] PNone idle)) =
      [rq; {| url := "/v1/decisions/d1/transition";
              json := [("status", PStr "approved")] |}] /\
    fst (Crewai._log_decision bare_host echo_store demo_observer
           "tool_usage" (PStr "search") [("q", PStr "x")] PNone idle) =
      Ok (PStr "d1").
Proof.
  destruct (proj1 (auto_approve_follows_propose bare_host echo_store)
              demo_observer "tool_usage" (PStr "search") [("q", PStr "x")]
              PNone idle)
    as (rq & r & w' & Hrun & _ & _ & _ & Hon & _).
  destruct (Hon eq_refl (PStr "d1") eq_refl eq_refl) as [Hr Hissued].
  exists rq. rewrite Hrun. simpl. split; [exact Hissued | exact Hr].
Defined.

(** ** The creation request *)

Section Context_entry.
Context (source : string) (ref_key : option string) (metadata : dict).
Hypothesis ref_key_apart :
  forall key, ref_key = Some key -> key <> "timestamp" /\ key <> "source".

Lemma proposed_context_ref context ts reference_id key :
  ref_key = Some key -> truthy reference_id = true ->
  dict_get key (proposed_context source ref_key metadata context ts reference_id)
    = Some reference_id.
Proof.
  intros -> Ht. unfold proposed_context. rewrite Ht. apply dict_get_set_eq.
Qed.

Lemma proposed_context_other context ts reference_id k :
  k <> "timestamp" -> k <> "source" ->
  (truthy reference_id = true -> ref_key <> Some k) ->
  dict_get k (proposed_context source ref_key metadata context ts reference_id)
    = dict_get k (dict_update context metadata).
Proof.
  intros Hts Hsrc Href. unfold proposed_context.
  assert (Hmerged :
    dict_get k (dict_set "source" (PStr source)
                  (dict_set "timestamp" (PStr ts) (dict_update context metadata)))
      = dict_get k (dict_update context metadata)).
  { rewrite !dict_get_set_ne by congruence. done. }
  destruct ref_key as [key|]; [|done].
  destruct (truthy reference_id); [|done].
  rewrite dict_get_set_ne; [done|]. intros ->. by apply Href.
Qed.

Lemma proposed_context_timestamp context ts reference_id :
  dict_get "timestamp"
    (proposed_context source ref_key metadata context ts reference_id)
    = Some (PStr ts).
Proof.
  unfold proposed_context.
  assert (Hmerged :
    dict_get "timestamp"
      (dict_set "source" (PStr source)
         (dict_set "timestamp" (PStr ts) (dict_update context metadata)))
      = Some (PStr ts)).
  { rewrite dict_get_set_ne by done. apply dict_get_set_eq. }
  destruct ref_key as [key|]; [|done].
  destruct (truthy reference_id); [|done].
  rewrite dict_get_set_ne; [done|].
  destruct (ref_key_apart key eq_refl). done.
Qed.

Lemma proposed_context_source context ts reference_id :
  dict_get "source"
    (proposed_context source ref_key metadata context ts reference_id)
    = Some (PStr source).
Proof.
  unfold proposed_context.
  destruct ref_key as [key|]; [|apply dict_get_set_eq].
  destruct (truthy reference_id); [|apply dict_get_set_eq].
  rewrite dict_get_set_ne; [apply dict_get_set_eq|].
  destruct (ref_key_apart key eq_refl). done.
Qed.

Lemma proposed_context_keys context ts reference_id k :
  In k (keys metadata) \/ In k (keys context) ->
  In k (keys (proposed_context source ref_key metadata context ts reference_id)).
Proof.
  intros Hin.
  assert (Hupd : In k (keys (dict_update context metadata))).
  { apply dict_get_in_keys. rewrite dict_get_update.
    destruct (dict_get k (reverse metadata)) eqn:Hrev; [by eexists|].
    destruct Hin as [Hin|Hin]; [|by apply dict_get_in_keys].
    exfalso. assert (Hsome : is_Some (dict_get k (reverse metadata))).
    { apply dict_get_in_keys. unfold keys. rewrite fmap_reverse.
      apply list_elem_of_In, elem_of_reverse, list_elem_of_In. done. }
    rewrite Hrev in Hsome. by destruct Hsome. }
  unfold proposed_context.
  assert (Hmerged :
    In k (keys (dict_set "source" (PStr source)
                  (dict_set "timestamp" (PStr ts) (dict_update context metadata))))).
  { by do 2 apply dict_set_keeps_keys. }
  destruct ref_key as [key|]; [|done].
  destruct (truthy reference_id); [|done].
  by apply dict_set_keeps_keys.
Qed.
End Context_entry.

Lemma log_decision_first_request I R agent source ref_key auto metadata
    decision_type action context reference_id w :
  first_request
    (issued w (snd (log_decision_body I R agent source ref_key auto metadata
                      decision_type action context reference_id w)))
  = Some (creation_request agent decision_type action
            (proposed_context source ref_key metadata context
               (utcnow R (sent w)) reference_id)).
Proof.
  destruct (log_decision_effect I R agent source ref_key auto metadata
              decision_type action context reference_id w)
    as (v & w' & Hrun & _ & Hcase).
  rewrite Hrun. cbv zeta in Hcase. cbn [snd].
  destruct (created _) as [e|d].
  - destruct Hcase as (_ & Hsent & _). by rewrite (issued_app w w' _ Hsent).
  - destruct Hcase as (_ & Hsent). by rewrite (issued_app w w' _ Hsent).
Qed.

Lemma creation_request_shape_body I R agent source ref_key auto metadata
    decision_type action context reference_id :
  (forall key, ref_key = Some key -> key <> "timestamp" /\ key <> "source") ->
  creation_request_shape R agent source metadata decision_type action context
    (log_decision_body I R agent source ref_key auto metadata
       decision_type action context reference_id).
Proof.
  intros Hapart w.
  eexists _, _. split; [apply log_decision_first_request|].
  split; [reflexivity|]. split; [reflexivity|].
  split; [by apply proposed_context_timestamp|].
  split; [by apply proposed_context_source|].
  split; intros k Hin; apply proposed_context_keys; auto.
Qed.

Lemma merge_order_body I R agent source ref_key auto metadata
    decision_type action context reference_id :
  (forall key, ref_key = Some key -> key <> "timestamp" /\ key <> "source") ->
  NoDup (keys metadata) ->
  merge_order R source ref_key metadata context reference_id
    (log_decision_body I R agent source ref_key auto metadata
       decision_type action context reference_id).
Proof.
  intros Hapart Hnd w.
  eexists _, _. split; [apply log_decision_first_request|].
  split; [reflexivity|].
  split; [by apply proposed_context_timestamp|].
  split; [by apply proposed_context_source|].
  split; [intros key Hkey Ht; by apply proposed_context_ref|].
  split.
  - intros k v Hmeta Hts Hsrc Href.
    rewrite proposed_context_other by done.
    rewrite dict_update_merges by done. by rewrite Hmeta.
  - intros k Hmeta Hts Hsrc Href.
    rewrite proposed_context_other by done.
    rewrite dict_update_merges by done. by rewrite Hmeta.
Qed.

(** C9. Every propose call, in the three adapters, hands [post] a creation
    request for [/v1/decisions] whose body has exactly the five entries
    agent_id, type, action, status and context, in which status is the
    literal "proposed" and the context holds the timestamp read from the
    clock under "timestamp", the tag of the adapter under "source"
    ("crewai", "langchain", "langchain-v1"), and every key of the instance
    metadata and of the caller's context. *)
Theorem creation_request_has_five_entries (I : interp) (R : remote) :
  (forall self decision_type action context reference_id,
     creation_request_shape R (Crewai.crew_id self) "crewai"
       (Crewai.metadata self) decision_type action context
       (Crewai._log_decision I R self decision_type action context reference_id)) /\
  (forall self decision_type action context run_id,
     creation_request_shape R (Callback.agent_id self) "langchain"
       (Callback.metadata self) decision_type action context
       (Callback._log_decision I R self decision_type action context run_id)) /\
  (forall self decision_type action context,
     creation_request_shape R (Middleware.agent_id self) "langchain-v1"
       (Middleware.metadata self) decision_type action context
       (Middleware.log_decision I R self decision_type action context)).
Proof.
  repeat split; intros; apply creation_request_shape_body;
    intros key Hkey; inversion Hkey; done.
Qed.

(** C10, the claim as stated fails.  The reference a propose call carries
    is written into the context after the merge.  In the observer, for the
    key "reference_id" held by both the caller's context and the metadata,
    the request carries neither value, and the context sent is not the merge
    of the caller's context, the metadata and the two generated fields.  In
    the callback handler, a metadata entry "run_id" never reaches the store:
    [on_tool_start] sends the run id of the host under that key. *)
Lemma reference_key_overrides_metadata :
  (let self := {| Crewai.crew_id := "crew";
                  Crewai.log_tool_calls := true;
                  Crewai.log_agent_thoughts := true;
                  Crewai.auto_approve := false;
                  Crewai.metadata := [("reference_id", PStr "m")] |} in
   let context := [("reference_id", PStr "c")] in
   exists rq c,
     first_request
       (issued idle
          (snd (Crewai._log_decision bare_host echo_store self "task_execution"
                  (PStr "execute_task") context (PStr "r") idle))) = Some rq /\
     dict_get "context" (json rq) = Some (PDict c) /\
     dict_get "reference_id" context = Some (PStr "c") /\
     dict_get "reference_id" (Crewai.metadata self) = Some (PStr "m") /\
     dict_get "reference_id" c = Some (PStr "r") /\
     dict_get "reference_id" c <> dict_get "reference_id" (Crewai.metadata self) /\
     c <> merge_as_claimed context (Crewai.metadata self)
            (utcnow echo_store (sent idle)) "crewai") /\
  (let self := {| Callback.agent_id := "agent";
                  Callback.log_llm_calls := false;
                  Callback.log_chain_calls := true;
                  Callback.auto_approve := false;
                  Callback.metadata := [("run_id", PStr "nightly-42")] |} in
   exists rq c context,
     Callback.tool_context bare_host [("name", PStr "search")] (PStr "q")
       PNone PNone PNone = Ok context /\
     first_request
       (issued idle
          (snd (Callback.on_tool_start bare_host echo_store self
                  [("name", PStr "search")] (PStr "q") "run-1"
                  PNone PNone PNone idle))) = Some rq /\
     dict_get "context" (json rq) = Some (PDict c) /\
     dict_get "run_id" c = Some (PStr "run-1") /\
     dict_get "run_id"
       (merge_as_claimed context (Callback.metadata self)
          (utcnow echo_store (sent idle)) "langchain") = Some (PStr "nightly-42")).
Proof.
  split.
  - eexists _, _. repeat split; try reflexivity; vm_compute; discriminate.
  - eexists _, _, _. repeat split; reflexivity.
Qed.

(** C10, amended.  In the creation request of every propose call the context
    is filled in this order: the caller's context, the instance metadata, the
    generated "timestamp" and "source", and last the reference key
    ("reference_id" in the observer, "run_id" in the callback handler; the
    middleware client has none) when the call carries a reference.  So
    "timestamp" and "source" always hold the generated values, the reference
    key holds the reference when there is one, and on every other key the
    metadata wins over the caller's context. *)
Theorem context_merge_order (I : interp) (R : remote) :
  (forall self decision_type action context reference_id,
     NoDup (keys (Crewai.metadata self)) ->
     merge_order R "crewai" (Some "reference_id") (Crewai.metadata self)
       context reference_id
       (Crewai._log_decision I R self decision_type action context reference_id)) /\
  (forall self decision_type action context run_id,
     NoDup (keys (Callback.metadata self)) ->
     merge_order R "langchain" (Some "run_id") (Callback.metadata self)
       context run_id
       (Callback._log_decision I R self decision_type action context run_id)) /\
  (forall self decision_type action context,
     NoDup (keys (Middleware.metadata self)) ->
     merge_order R "langchain-v1" None (Middleware.metadata self)
       context PNone
       (Middleware.log_decision I R self decision_type action context)).
Proof.
  repeat split; intros; apply merge_order_body; try done;
    intros key Hkey; inversion Hkey; done.
Qed.

Lemma context_merge_order_witness :
  exists rq c,
    first_request
      (issued idle
         (snd (Crewai._log_decision bare_host echo_store demo_observer
                 "tool_usage" (PStr "search")
                 [("env", PStr "caller"); ("q", PStr "x")] PNone idle))) = Some rq /\
    dict_get "context" (json rq) = Some (PDict c) /\
    dict_get "env" c = Some (PStr "test") /\
    dict_get "q" c = Some (PStr "x").
Proof.
  assert (Hnd : NoDup (keys (Crewai.metadata demo_observer))).
  { apply (bool_decide_unpack _). vm_compute. exact Logic.I. }
  destruct (proj1 (context_merge_order bare_host echo_store)
              demo_observer "tool_usage" (PStr "search")
              [("env", PStr "caller"); ("q", PStr "x")] PNone Hnd idle)
    as (rq & c & Hfirst & Hctx & _ & _ & _ & Hmeta & Hcaller).
  exists rq, c. split; [exact Hfirst|]. split; [exact Hctx|]. split.
  - apply (Hmeta "env" (PStr "test")); [reflexivity | | | ]; discriminate.
  - rewrite (Hcaller "q"); [reflexivity | reflexivity | | | ]; discriminate.
Defined.

(** ** The table and the hooks around it *)

Lemma log_decision_leaves_table I R agent source ref_key auto metadata
    decision_type action reference_id :
  leaves_table (fun c => log_decision_body I R agent source ref_key auto metadata
                           decision_type action c reference_id).
Proof.
  intros c w.
  destruct (log_decision_effect I R agent source ref_key auto metadata
              decision_type action c reference_id w)
    as (v & w' & Hrun & Hactive & _).
  by exists v, w'.
Qed.

Lemma unit_start_effect key context propose w :
  leaves_table propose ->
  let w' := snd (unit_start key context propose w) in
  match proposed_id context propose w with
  | Some d =>
      if truthy d
      then active w' = <[key := d]> (active w)
      else active w' = active w
  | None => w' = w
  end.
Proof.
  intros Hleaves. unfold unit_start, proposed_id, bind, lift.
  destruct context as [c|e]; [|done]. cbv beta iota.
  destruct (Hleaves c w) as (v & w1 & Hrun & Hactive).
  rewrite Hrun. cbn [fst snd].
  destruct (truthy v); simpl; by rewrite Hactive.
Qed.

Lemma unit_finish_effect I R key status result w :
  let w' := snd (unit_finish I R key status result w) in
  active w' = delete key (active w) /\
  match active w !! key with
  | Some d =>
      if truthy d
      then match result with
           | Ok r => fst (unit_finish I R key status result w) = Ok tt /\
                     sent w' = sent w ++ [transition_request I d status r]
           | Raise e => fst (unit_finish I R key status result w) = Raise e /\
                        sent w' = sent w
           end
      else sent w' = sent w
  | None => sent w' = sent w
  end.
Proof.
  unfold unit_finish, bind, pop, lift. cbv beta iota zeta.
  destruct (active w !! key) as [d|]; simpl; [|done].
  destruct (truthy d); [|done].
  destruct result as [r|e]; [|done].
  match goal with
  | |- context [transition_decision_body I R d status r ?w0] =>
      destruct (transition_effect I R d status r w0)
        as (Hfst & Hsent & Hactive & _)
  end.
  rewrite Hactive, Hsent, Hfst. done.
Qed.

Lemma transition_request_terminal I d status result :
  status = "executed" \/ status = "failed" ->
  terminal (transition_request I d status result) = true.
Proof.
  intros [-> | ->]; unfold terminal, transition_request; simpl;
    destruct (truthy result); reflexivity.
Qed.

(** The two shapes give one terminal transition per unit of work. *)
Lemma once_per_unit_shape I R key context propose :
  leaves_table propose ->
  once_per_unit I key (unit_start key context propose)
    (proposed_id context propose)
    (fun f => exists status result,
                (status = "executed" \/ status = "failed") /\
                forall w, f w = unit_finish I R key status result w).
Proof.
  intros Hleaves w finish1 finish2 (st1 & r1 & Hst1 & Hf1) (st2 & r2 & Hst2 & Hf2).
  cbv zeta. rewrite !Hf1, !Hf2.
  set (started := snd (unit_start key context propose w)).
  set (once := snd (unit_finish I R key st1 r1 started)).
  set (twice := snd (unit_finish I R key st2 r2 once)).
  pose proof (unit_start_effect key context propose w Hleaves) as Hstart.
  cbv zeta in Hstart. fold started in Hstart.
  destruct (unit_finish_effect I R key st1 r1 started) as [Hact1 Hsent1].
  fold once in Hact1, Hsent1.
  destruct (unit_finish_effect I R key st2 r2 once) as [_ Hsent2].
  fold twice in Hsent2.
  assert (Hsecond : sent twice = sent once).
  { rewrite Hact1, lookup_delete_eq in Hsent2. done. }
  split; [|split; [done|split]].
  - unfold issued. rewrite Hsecond. fold (issued started once).
    destruct (active started !! key) as [d|].
    + destruct (truthy d).
      * destruct r1 as [r|e]; destruct Hsent1 as [_ Hsent1].
        -- rewrite (issued_app _ _ _ Hsent1). simpl.
           destruct (terminal _); simpl; lia.
        -- rewrite (issued_same _ _ Hsent1). simpl. lia.
      * rewrite (issued_same _ _ Hsent1). simpl. lia.
    + rewrite (issued_same _ _ Hsent1). simpl. lia.
  - intros d Hd Ht. rewrite Hd, Ht in Hstart.
    assert (Hstored : active started !! key = Some d).
    { rewrite Hstart. apply lookup_insert_eq. }
    split; [done|]. rewrite Hstored, Ht in Hsent1.
    destruct r1 as [r|e]; destruct Hsent1 as [-> Hsent1].
    + exists (transition_request I d st1 r).
      split; [by apply issued_app|]. split; [|done].
      by apply transition_request_terminal.
    + by apply issued_same.
  - intros d Hd Ht. rewrite Hd, Ht in Hstart. split; [done|].
    intros Hfree. rewrite Hstart, Hfree in Hsent1. done.
Qed.

Lemma overwrites_shape key context propose :
  leaves_table propose ->
  overwrites key (unit_start key context propose) (proposed_id context propose).
Proof.
  intros Hleaves w d1 d2 Hold Hnew Ht. cbv zeta.
  pose proof (unit_start_effect key context propose w Hleaves) as Hstart.
  cbv zeta in Hstart. rewrite Hnew, Ht in Hstart.
  set (w' := snd (unit_start key context propose w)) in *.
  assert (Hstored : active w' !! key = Some d2).
  { rewrite Hstart. apply lookup_insert_eq. }
  split; [done|]. split.
  - rewrite Hstart. apply dom_insert_lookup_L. by eexists.
  - unfold pop. cbn [fst snd active]. rewrite Hstored, lookup_delete_eq. done.
Qed.

(** Each end or error hook has the shape [unit_finish]. *)
Lemma on_task_end_shape I R task output w :
  Crewai.on_task_end I R task output w =
    unit_finish I R (id_str I task) "executed"
      (rbind (text_or_none I 5000 output)
         (fun text => Ok (PDict [("output", text)]))) w.
Proof.
  unfold Crewai.on_task_end, unit_finish, bind, lift.
  destruct (pop _ w) as [[d|e] w1]; [|done].
  destruct (truthy d); [|done]. destruct (text_or_none I 5000 output); done.
Qed.

Lemma on_task_error_shape I R task error w :
  Crewai.on_task_error I R task error w =
    unit_finish I R (id_str I task) "failed"
      (Ok (PDict [("error", PStr (to_str I error))])) w.
Proof. reflexivity. Qed.

Lemma observer_on_agent_finish_shape I R agent output w :
  Crewai.on_agent_finish I R agent output w =
    unit_finish I R ("action_" +:+ Crewai.agent_key I agent) "executed"
      (rbind (serialize I output) (fun s => Ok (PDict [("output", s)]))) w.
Proof.
  unfold Crewai.on_agent_finish, unit_finish, bind, lift.
  destruct (pop _ w) as [[d|e] w1]; [|done].
  destruct (truthy d); [|done]. destruct (serialize I output); done.
Qed.

Lemma handler_on_agent_finish_shape I R finish run_id w :
  Callback.on_agent_finish I R finish run_id w =
    unit_finish I R run_id "executed"
      (rbind (serialize I (Callback.return_values finish))
         (fun s => Ok (PDict [("output", s);
                              ("log", Callback.finish_log finish)]))) w.
Proof.
  unfold Callback.on_agent_finish, unit_finish, bind, lift.
  destruct (pop _ w) as [[d|e] w1]; [|done].
  destruct (truthy d); [|done].
  destruct (serialize I (Callback.return_values finish)); done.
Qed.

Lemma on_tool_end_shape I R output run_id w :
  Callback.on_tool_end I R output run_id w =
    unit_finish I R run_id "executed" (Ok (PDict [("output", output)])) w.
Proof. reflexivity. Qed.

Lemma on_tool_error_shape I R error run_id w :
  Callback.on_tool_error I R error run_id w =
    unit_finish I R run_id "failed"
      (Ok (PDict [("error", PStr (to_str I error))])) w.
Proof. reflexivity. Qed.

(** Recognises an end or error hook as an instance of [unit_finish]. *)
Ltac finish_shape H :=
  repeat match type of H with
         | _ \/ _ => destruct H as [H|H]
         | exists _, _ => destruct H as [? H]
         end;
  subst;
  eexists _, _;
  (split;
   [ | intros w0;
       first [ apply on_task_end_shape | apply on_task_error_shape
             | apply observer_on_agent_finish_shape
             | apply handler_on_agent_finish_shape
             | apply on_tool_end_shape | apply on_tool_error_shape ] ]);
  auto.

(** C1, the claim as stated fails.  A task is started and the store files
    its decision as d1; the task is started again before it has ended, and
    this time propose fails and the start hook stores nothing.  The end hook
    that follows does not find the key absent: it takes the entry of the
    first start and issues the terminal transition of d1. *)
Lemma failed_propose_closes_earlier_decision :
  active started_once !! id_str bare_host (PObj 5) = Some (PStr "d1") /\
  proposed_id (Crewai.task_context bare_host (PObj 5) (PObj 6))
    (fun c => Crewai._log_decision bare_host flaky_store demo_observer
                "task_execution" (PStr "execute_task") c
                (PStr (id_str bare_host (PObj 5))))
    started_once = Some PNone /\
  active started_again = active started_once /\
  issued started_again
    (snd (Crewai.on_task_end bare_host flaky_store (PObj 5) (PStr "done")
            started_again))
    = [{| url := "/v1/decisions/d1/transition";
          json := [("status", PStr "executed");
                   ("result", PDict [("output", PStr "done")])] |}].
Proof.
  split; [vm_compute; reflexivity|].
  split; [vm_compute; reflexivity|].
  split; vm_compute; reflexivity.
Qed.

(** C1, amended.  For a task and for an agent action of the observer, for an
    agent action and for a tool run of the callback handler: the start hook
    stores the id that propose returned, when it is truthy, under the
    correlation key; the end or error hook takes it out of the table and
    issues the terminal transition of that id, or nothing when it raises
    while it builds the result; an end or error hook that fires again for
    the same key finds no entry and issues nothing, so that at most one
    terminal transition is issued; and when propose returned no id, the
    start hook leaves the table as it found it, and the end or error hook
    issues nothing provided the key held no entry before the start hook
    ran. *)
Theorem at_most_one_terminal_transition (I : interp) (R : remote) :
  (forall self task agent,
     once_per_unit I (id_str I task)
       (Crewai.on_task_start I R self task agent)
       (proposed_id (Crewai.task_context I task agent)
          (fun c => Crewai._log_decision I R self "task_execution"
                      (PStr "execute_task") c (PStr (id_str I task))))
       (fun f => (exists output, f = Crewai.on_task_end I R task output) \/
                 (exists error, f = Crewai.on_task_error I R task error))) /\
  (forall self agent action action_input,
     once_per_unit I ("action_" +:+ Crewai.agent_key I agent)
       (Crewai.on_agent_action I R self agent action action_input)
       (proposed_id (Crewai.action_context I agent action action_input)
          (fun c => Crewai._log_decision I R self "agent_action" action c
                      (PStr (Crewai.agent_key I agent))))
       (fun f => exists output, f = Crewai.on_agent_finish I R agent output)) /\
  (forall self action run_id,
     once_per_unit I run_id
       (Callback.on_agent_action I R self action run_id)
       (proposed_id (Callback.action_context I action)
          (fun c => Callback._log_decision I R self "tool_invocation"
                      (Callback.tool action) c (PStr run_id)))
       (fun f => exists finish, f = Callback.on_agent_finish I R finish run_id)) /\
  (forall self serialized input_str run_id tags metadata inputs,
     once_per_unit I run_id
       (Callback.on_tool_start I R self serialized input_str run_id
          tags metadata inputs)
       (proposed_id
          (Callback.tool_context I serialized input_str tags metadata inputs)
          (fun c => Callback._log_decision I R self "tool_execution"
                      (default (PStr "unknown_tool") (dict_get "name" serialized))
                      c (PStr run_id)))
       (fun f => (exists output, f = Callback.on_tool_end I R output run_id) \/
                 (exists error, f = Callback.on_tool_error I R error run_id))).
Proof.
  split; [|split; [|split]].
  - intros self task agent w finish1 finish2 Hf1 Hf2.
    apply (once_per_unit_shape I R (id_str I task)
             (Crewai.task_context I task agent)
             (fun c => Crewai._log_decision I R self "task_execution"
                         (PStr "execute_task") c (PStr (id_str I task))));
      [apply log_decision_leaves_table | finish_shape Hf1 | finish_shape Hf2].
  - intros self agent action action_input w finish1 finish2 Hf1 Hf2.
    apply (once_per_unit_shape I R ("action_" +:+ Crewai.agent_key I agent)
             (Crewai.action_context I agent action action_input)
             (fun c => Crewai._log_decision I R self "agent_action" action c
                         (PStr (Crewai.agent_key I agent))));
      [apply log_decision_leaves_table | finish_shape Hf1 | finish_shape Hf2].
  - intros self action run_id w finish1 finish2 Hf1 Hf2.
    apply (once_per_unit_shape I R run_id (Callback.action_context I action)
             (fun c => Callback._log_decision I R self "tool_invocation"
                         (Callback.tool action) c (PStr run_id)));
      [apply log_decision_leaves_table | finish_shape Hf1 | finish_shape Hf2].
  - intros self serialized input_str run_id tags metadata inputs
           w finish1 finish2 Hf1 Hf2.
    apply (once_per_unit_shape I R run_id
             (Callback.tool_context I serialized input_str tags metadata inputs)
             (fun c => Callback._log_decision I R self "tool_execution"
                         (default (PStr "unknown_tool") (dict_get "name" serialized))
                         c (PStr run_id)));
      [apply log_decision_leaves_table | finish_shape Hf1 | finish_shape Hf2].
Qed.

Lemma at_most_one_terminal_transition_witness :
  let task := PObj 5 in
  let key := id_str bare_host task in
  let started :=
    snd (Crewai.on_task_start bare_host echo_store demo_observer task (PObj 6) idle) in
  let once := snd (Crewai.on_task_end bare_host echo_store task (PStr "done") started) in
  let twice := snd (Crewai.on_task_error bare_host echo_store task (PStr "late") once) in
  let unreached :=
    snd (Crewai.on_task_start bare_host down_store demo_observer task (PObj 6) idle) in
  (length (List.filter terminal (issued started twice)) <= 1 /\
   sent twice = sent once /\
   active started !! key = Some (PStr "d1")) /\
  sent (snd (Crewai.on_task_end bare_host down_store task (PStr "done") unreached))
    = sent unreached.
Proof.
  split.
  - destruct (proj1 (at_most_one_terminal_transition bare_host echo_store)
                demo_observer (PObj 5) (PObj 6) idle
                (Crewai.on_task_end bare_host echo_store (PObj 5) (PStr "done"))
                (Crewai.on_task_error bare_host echo_store (PObj 5) (PStr "late"))
                (or_introl (ex_intro _ (PStr "done") eq_refl))
                (or_intror (ex_intro _ (PStr "late") eq_refl)))
      as (Hcount & Hsecond & Hstored & _).
    split; [exact Hcount|]. split; [exact Hsecond|].
    exact (proj1 (Hstored (PStr "d1") eq_refl eq_refl)).
  - destruct (proj1 (at_most_one_terminal_transition bare_host down_store)
                demo_observer (PObj 5) (PObj 6) idle
                (Crewai.on_task_end bare_host down_store (PObj 5) (PStr "done"))
                (Crewai.on_task_end bare_host down_store (PObj 5) (PStr "done"))
                (or_introl (ex_intro _ (PStr "done") eq_refl))
                (or_introl (ex_intro _ (PStr "done") eq_refl)))
      as (_ & _ & _ & Habsent).
    exact (proj2 (Habsent PNone eq_refl eq_refl) eq_refl).
Defined.

(** C5. The table holds one entry per key.  A start hook that files a
    decision under a key that already holds one ([on_agent_action] of the
    callback handler under the run id, [on_task_start] of the observer under
    the task id) replaces the id without a trace of the previous one: the
    keys of the table are unchanged, the next take on the key returns the id
    stored last, and the take after it finds nothing. *)
Theorem put_overwrites_previous_entry (I : interp) (R : remote) :
  (forall self action run_id,
     overwrites run_id
       (Callback.on_agent_action I R self action run_id)
       (proposed_id (Callback.action_context I action)
          (fun c => Callback._log_decision I R self "tool_invocation"
                      (Callback.tool action) c (PStr run_id)))) /\
  (forall self task agent,
     overwrites (id_str I task)
       (Crewai.on_task_start I R self task agent)
       (proposed_id (Crewai.task_context I task agent)
          (fun c => Crewai._log_decision I R self "task_execution"
                      (PStr "execute_task") c (PStr (id_str I task))))).
Proof.
  split.
  - intros self action run_id.
    apply (overwrites_shape run_id (Callback.action_context I action)
             (fun c => Callback._log_decision I R self "tool_invocation"
                         (Callback.tool action) c (PStr run_id))).
    apply log_decision_leaves_table.
  - intros self task agent.
    apply (overwrites_shape (id_str I task) (Crewai.task_context I task agent)
             (fun c => Crewai._log_decision I R self "task_execution"
                         (PStr "execute_task") c (PStr (id_str I task)))).
    apply log_decision_leaves_table.
Qed.

Lemma put_overwrites_previous_entry_witness :
  let action := {| Callback.tool := PStr "search";
                   Callback.tool_input := PDict [("q", PStr "x")];
                   Callback.log := PStr "look it up" |} in
  let busy := {| sent := []; errors := [];
                 active := <["run-1" := PStr "d0"]> ∅ |} in
  let w' := snd (Callback.on_agent_action bare_host echo_store demo_handler
                   action "run-1" busy) in
  active w' !! "run-1" = Some (PStr "d1") /\
  dom (active w') = dom (active busy) /\
  fst (pop "run-1" w') = Ok (PStr "d1") /\
  fst (pop "run-1" (snd (pop "run-1" w'))) = Ok PNone.
Proof.
  apply (proj1 (put_overwrites_previous_entry bare_host echo_store)
           demo_handler
           {| Callback.tool := PStr "search";
              Callback.tool_input := PDict [("q", PStr "x")];
              Callback.log := PStr "look it up" |}
           "run-1"
           {| sent := []; errors := []; active := <["run-1" := PStr "d0"]> ∅ |}
           (PStr "d0") (PStr "d1")); reflexivity.
Defined.

(** C3, at an input on which the code raises.  [on_tool_use] slices
    [self._serialize(tool_output)] without turning it into a string first:
    for a tool that returned [None] the slice raises [TypeError], outside any
    [try], before anything is logged or sent, and the exception reaches the
    host. *)
Theorem on_tool_use_raises_on_none_output (R : remote) (w : world) :
  Crewai.on_tool_use bare_host R demo_observer
    (PObj 7) (PStr "search") (PStr "q") PNone w
  = (Raise TypeError, w).
Proof. reflexivity. Qed.

(** * Further properties *)

(** ** More on the serializer *)

Lemma mapM_Forall {A B} (P : B -> Prop) (f : A -> result B) (l : list A) ys :
  (forall x y, In x l -> f x = Ok y -> P y) ->
  mapM f l = Ok ys -> Forall P ys.
Proof.
  revert ys. induction l as [|x l IH]; simpl; intros ys HP H.
  - inversion H. constructor.
  - destruct (f x) as [y|e] eqn:Hx; simpl in H; [|done].
    destruct (mapM f l) as [ys'|e] eqn:Hl; simpl in H; [|done].
    inversion H; subst. constructor; [eauto | apply IH; eauto].
Qed.

Lemma mapM_length {A B} (f : A -> result B) (l : list A) ys :
  mapM f l = Ok ys -> length ys = length l.
Proof.
  revert ys. induction l as [|x l IH]; simpl; intros ys H.
  - by inversion H.
  - destruct (f x) as [y|e]; simpl in H; [|done].
    destruct (mapM f l) as [ys'|e]; simpl in H; [|done].
    inversion H; subst. simpl. f_equal. by apply IH.
Qed.

Lemma mapM_keeps_keys (f : value -> result value) (kvs kvs' : dict) :
  mapM (fun kv => rbind (f (snd kv)) (fun v => Ok (fst kv, v))) kvs = Ok kvs' ->
  keys kvs' = keys kvs.
Proof.
  revert kvs'. induction kvs as [|[k v] kvs IH]; simpl; intros kvs' H.
  - by inversion H.
  - destruct (f v) as [y|e]; simpl in H; [|done].
    match type of H with rbind ?m _ = _ => destruct m as [ys|e] eqn:Hm end;
      simpl in H; [|done].
    inversion H; subst. simpl. f_equal. by apply IH.
Qed.

Lemma foldr_max_le {A} (f : A -> nat) (l : list A) m :
  Forall (fun x => f x <= m) l ->
  foldr (fun x n => Nat.max (f x) n) 0 l <= m.
Proof. induction 1; simpl; lia. Qed.

(** What the serializer returns is a value of JSON that nests no deeper
    than the calls the serializer was allowed. *)
Lemma serialize_output_bounded (I : interp) n v j :
  _serialize I n v = Ok j -> json_safe j = true /\ nesting j <= n.
Proof.
  revert v j. induction n as [|n IH]; intros v j H; [done|].
  destruct v as [| | | | |vs|vs|kvs|a]; cbn [_serialize] in H;
    try (inversion H; subst; simpl; split; [done | lia]).
  - destruct (mapM (_serialize I n) vs) as [ys|] eqn:Hm; simpl in H; [|done].
    inversion H; subst.
    pose proof (mapM_Forall (fun y => json_safe y = true /\ nesting y <= n)
                  _ _ _ (fun x y _ Hxy => IH x y Hxy) Hm) as Hall.
    split.
    + simpl. apply forallb_forall. intros y Hy.
      apply list_elem_of_In in Hy.
      by destruct (proj1 (Forall_forall _ _) Hall y Hy).
    + simpl. apply le_n_S. apply foldr_max_le.
      eapply Forall_impl; [exact Hall|]. by intros y [_ ?].
  - destruct (mapM (_serialize I n) vs) as [ys|] eqn:Hm; simpl in H; [|done].
    inversion H; subst.
    pose proof (mapM_Forall (fun y => json_safe y = true /\ nesting y <= n)
                  _ _ _ (fun x y _ Hxy => IH x y Hxy) Hm) as Hall.
    split.
    + simpl. apply forallb_forall. intros y Hy.
      apply list_elem_of_In in Hy.
      by destruct (proj1 (Forall_forall _ _) Hall y Hy).
    + simpl. apply le_n_S. apply foldr_max_le.
      eapply Forall_impl; [exact Hall|]. by intros y [_ ?].
  - match type of H with rbind ?m _ = _ => destruct m as [ys|] eqn:Hm end;
      simpl in H; [|done].
    inversion H; subst.
    assert (Hall : Forall (fun kv : string * value =>
                             json_safe (snd kv) = true /\ nesting (snd kv) <= n) ys).
    { eapply mapM_Forall; [|exact Hm]. intros kv y _ Hkv. simpl in Hkv.
      destruct (_serialize I n (snd kv)) as [y'|] eqn:Hs; simpl in Hkv; [|done].
      inversion Hkv; subst. simpl. eauto. }
    split.
    + simpl. apply forallb_forall. intros y Hy.
      apply list_elem_of_In in Hy.
      by destruct (proj1 (Forall_forall _ _) Hall y Hy).
    + simpl. apply le_n_S.
      apply (foldr_max_le (fun kv : string * value => nesting (snd kv))).
      eapply Forall_impl; [exact Hall|]. by intros y [_ ?].
  - destruct (hasattr I (PObj a) "dict").
    + destruct (call_method I (PObj a) "dict") as [exported|]; simpl in H; [|done].
      destruct (IH _ _ H). split; [done | lia].
    + destruct (vars I (PObj a)) as [bag|].
      * destruct (IH _ _ H). split; [done | lia].
      * inversion H; subst. simpl. split; [done | lia].
Qed.



(** X2. A result obtained within some recursion limit is the result under
    every larger limit. *)
Theorem serialize_result_stable (I : interp) (n depth : nat) (v j : value) :
  _serialize I n v = Ok j -> n <= depth -> _serialize I depth v = Ok j.
Proof.
  intros H Hle. rewrite <- H.
  apply serialize_stable; [|done]. by eapply serialize_returns_within.
Qed.

Lemma serialize_result_stable_witness :
  _serialize model_host 1000 (PObj 0) =
    Ok (PDict [("pair", PList [PInt 1; PStr "<object>"])]).
Proof.
  apply (serialize_result_stable model_host 4 1000 (PObj 0)); [reflexivity | lia].
Defined.

(** X3. The serializer is idempotent on every input: whenever it returns,
    serializing what it returned returns the same value again. *)
Theorem serialize_idempotent (I : interp) (n : nat) (v j : value) :
  _serialize I n v = Ok j -> _serialize I n j = Ok j.
Proof.
  intros H. destruct (serialize_output_bounded I n v j H).
  by apply serialize_json_safe.
Qed.

Lemma serialize_idempotent_witness :
  _serialize model_host 1000 (PDict [("pair", PList [PInt 1; PStr "<object>"])]) =
    Ok (PDict [("pair", PList [PInt 1; PStr "<object>"])]).
Proof.
  apply (serialize_idempotent model_host 1000 (PObj 0)). reflexivity.
Defined.

(** X4. The serializer keeps the shape of containers: a mapping comes back as
    a mapping with the same keys in the same order, a list or a tuple as a
    list of the same length. *)
Theorem serialize_keeps_shape (I : interp) (n : nat) (j : value) :
  (forall kvs, _serialize I n (PDict kvs) = Ok j ->
     exists kvs', j = PDict kvs' /\ keys kvs' = keys kvs) /\
  (forall vs, _serialize I n (PList vs) = Ok j ->
     exists vs', j = PList vs' /\ length vs' = length vs) /\
  (forall vs, _serialize I n (PTuple vs) = Ok j ->
     exists vs', j = PList vs' /\ length vs' = length vs).
Proof.
  destruct n as [|n]; [repeat split; intros; done|].
  repeat split; intros l H; cbn [_serialize] in H.
  - match type of H with rbind ?m _ = _ => destruct m as [ys|] eqn:Hm end;
      simpl in H; [|done].
    inversion H; subst. eexists; split; [done|].
    by eapply (mapM_keeps_keys (_serialize I n)).
  - destruct (mapM (_serialize I n) l) as [ys|] eqn:Hm; simpl in H; [|done].
    inversion H; subst. eexists; split; [done|]. by eapply mapM_length.
  - destruct (mapM (_serialize I n) l) as [ys|] eqn:Hm; simpl in H; [|done].
    inversion H; subst. eexists; split; [done|]. by eapply mapM_length.
Qed.

Lemma serialize_keeps_shape_witness :
  exists vs', PList [PInt 1; PStr "<object>"] = PList vs' /\
              length vs' = length [PInt 1; PObj 2].
Proof.
  apply (proj2 (proj2 (serialize_keeps_shape model_host 1000
                         (PList [PInt 1; PStr "<object>"])))
           [PInt 1; PObj 2]).
  reflexivity.
Defined.

(** ** More on the hooks and the table *)

Lemma log_decision_active I R agent source ref_key auto metadata
    decision_type action context reference_id w :
  active (snd (log_decision_body I R agent source ref_key auto metadata
                 decision_type action context reference_id w)) = active w.
Proof.
  destruct (log_decision_effect I R agent source ref_key auto metadata
              decision_type action context reference_id w)
    as (v & w' & Hrun & Hactive & _).
  by rewrite Hrun.
Qed.

Lemma log_decision_returns I R agent source ref_key auto metadata
    decision_type action context reference_id w :
  exists d, fst (log_decision_body I R agent source ref_key auto metadata
                   decision_type action context reference_id w) = Ok d.
Proof.
  destruct (log_decision_effect I R agent source ref_key auto metadata
              decision_type action context reference_id w)
    as (v & w' & Hrun & _).
  exists v. by rewrite Hrun.
Qed.

Lemma transition_active I R decision_id status result w :
  active (snd (transition_decision_body I R decision_id status result w)) = active w.
Proof. by destruct (transition_effect I R decision_id status result w) as (_ & _ & ? & _). Qed.

Lemma unit_start_touches_only key context propose :
  leaves_table propose -> touches_only key (unit_start key context propose).
Proof.
  intros Hleaves w other Hne.
  pose proof (unit_start_effect key context propose w Hleaves) as H.
  cbv zeta in H. destruct (proposed_id context propose w) as [d|].
  - destruct (truthy d); rewrite H; [|done]. by apply lookup_insert_ne.
  - by rewrite H.
Qed.

Lemma unit_finish_touches_only I R key status result :
  touches_only key (unit_finish I R key status result).
Proof.
  intros w other Hne.
  destruct (unit_finish_effect I R key status result w) as [-> _].
  by apply lookup_delete_ne.
Qed.

Lemma touches_only_ext key (f g : M unit) :
  (forall w, f w = g w) -> touches_only key g -> touches_only key f.
Proof. intros Hfg Hg w other Hne. rewrite Hfg. by apply Hg. Qed.

(** X5. Units of work under different keys do not interfere: every start,
    end and error hook of the observer and of the callback handler changes
    at most the table entry of its own correlation key. *)
Theorem hooks_touch_only_their_key (I : interp) (R : remote) :
  (forall self task agent,
     touches_only (id_str I task) (Crewai.on_task_start I R self task agent)) /\
  (forall task output,
     touches_only (id_str I task) (Crewai.on_task_end I R task output)) /\
  (forall task error,
     touches_only (id_str I task) (Crewai.on_task_error I R task error)) /\
  (forall self agent action action_input,
     touches_only ("action_" +:+ Crewai.agent_key I agent)
       (Crewai.on_agent_action I R self agent action action_input)) /\
  (forall agent output,
     touches_only ("action_" +:+ Crewai.agent_key I agent)
       (Crewai.on_agent_finish I R agent output)) /\
  (forall self action run_id,
     touches_only run_id (Callback.on_agent_action I R self action run_id)) /\
  (forall finish run_id,
     touches_only run_id (Callback.on_agent_finish I R finish run_id)) /\
  (forall self serialized input_str run_id tags metadata inputs,
     touches_only run_id
       (Callback.on_tool_start I R self serialized input_str run_id
          tags metadata inputs)) /\
  (forall output run_id,
     touches_only run_id (Callback.on_tool_end I R output run_id)) /\
  (forall error run_id,
     touches_only run_id (Callback.on_tool_error I R error run_id)).
Proof.
  repeat split; intros;
    first
      [ apply (unit_start_touches_only _ (Crewai.task_context I task agent)
                 (fun c => Crewai._log_decision I R self "task_execution"
                             (PStr "execute_task") c (PStr (id_str I task))));
        apply log_decision_leaves_table
      | apply (unit_start_touches_only _
                 (Crewai.action_context I agent action action_input)
                 (fun c => Crewai._log_decision I R self "agent_action" action c
                             (PStr (Crewai.agent_key I agent))));
        apply log_decision_leaves_table
      | apply (unit_start_touches_only _ (Callback.action_context I action)
                 (fun c => Callback._log_decision I R self "tool_invocation"
                             (Callback.tool action) c (PStr run_id)));
        apply log_decision_leaves_table
      | apply (unit_start_touches_only _
                 (Callback.tool_context I serialized input_str tags metadata inputs)
                 (fun c => Callback._log_decision I R self "tool_execution"
                             (default (PStr "unknown_tool")
                                (dict_get "name" serialized))
                             c (PStr run_id)));
        apply log_decision_leaves_table
      | eapply touches_only_ext;
        [ first [ apply on_task_end_shape | apply on_task_error_shape
                | apply observer_on_agent_finish_shape
                | apply handler_on_agent_finish_shape
                | apply on_tool_end_shape | apply on_tool_error_shape ]
        | apply unit_finish_touches_only ] ].
Qed.

Lemma hooks_touch_only_their_key_witness :
  let busy := {| sent := []; errors := [];
                 active := <["run-2" := PStr "d9"]> ∅ |} in
  active (snd (Callback.on_tool_end bare_host echo_store (PStr "out") "run-1"
                 (snd (Callback.on_tool_start bare_host echo_store demo_handler
                         [("name", PStr "search")] (PStr "q") "run-1"
                         PNone PNone PNone busy)))) !! "run-2"
  = Some (PStr "d9").
Proof.
  cbv zeta.
  destruct (hooks_touch_only_their_key bare_host echo_store)
    as (_ & _ & _ & _ & _ & _ & _ & Hstart & Hend & _).
  rewrite (Hend (PStr "out") "run-1" _ "run-2"); [|discriminate].
  rewrite (Hstart demo_handler [("name", PStr "search")] (PStr "q") "run-1"
             PNone PNone PNone _ "run-2"); [|discriminate].
  reflexivity.
Defined.

(** ** The tool and thought hooks of the observer *)

(** A decision that is proposed and moved to [status] at once. *)
Lemma immediate_run I R (propose : M value) status result w :
  (decision_id <- propose ;;
   if truthy decision_id
   then transition_decision_body I R decision_id status result
   else ret tt) w =
    match fst (propose w) with
    | Ok d =>
        (Ok tt,
         if truthy d
         then snd (transition_decision_body I R d status result (snd (propose w)))
         else snd (propose w))
    | Raise e => (Raise e, snd (propose w))
    end.
Proof.
  unfold bind. destruct (propose w) as [[d|e] w1]; cbn [fst snd]; [|done].
  destruct (truthy d); [|done]. by rewrite transition_run.
Qed.

Lemma on_tool_use_run I R self agent tool_name tool_input tool_output w :
  Crewai.on_tool_use I R self agent tool_name tool_input tool_output w =
    if negb (Crewai.log_tool_calls self) then (Ok tt, w)
    else
      match serialize I tool_input with
      | Raise e => (Raise e, w)
      | Ok serialized_input =>
          match rbind (serialize I tool_output) (slice_to 2000) with
          | Raise e => (Raise e, w)
          | Ok serialized_output =>
              let proposed :=
                Crewai._log_decision I R self "tool_usage" tool_name
                  [("agent_name",
                    getattr_default I agent "role" (PStr "unknown_agent"));
                   ("tool_name", tool_name);
                   ("tool_input", serialized_input);
                   ("tool_output", serialized_output)] PNone w in
              match fst proposed with
              | Ok d =>
                  (Ok tt,
                   if truthy d
                   then snd (transition_decision_body I R d "executed" PNone
                               (snd proposed))
                   else snd proposed)
              | Raise e => (Raise e, snd proposed)
              end
          end
      end.
Proof.
  unfold Crewai.on_tool_use.
  destruct (negb (Crewai.log_tool_calls self)); [done|].
  unfold bind at 1. unfold lift at 1.
  destruct (serialize I tool_input) as [ji|e]; [|done].
  unfold bind at 1. unfold lift at 1.
  destruct (rbind (serialize I tool_output) (slice_to 2000)) as [jo|e]; [|done].
  apply immediate_run.
Qed.

Lemma on_tool_error_run I R self agent tool_name tool_input error w :
  Crewai.on_tool_error I R self agent tool_name tool_input error w =
    if negb (Crewai.log_tool_calls self) then (Ok tt, w)
    else
      match serialize I tool_input with
      | Raise e => (Raise e, w)
      | Ok serialized_input =>
          let proposed :=
            Crewai._log_decision I R self "tool_usage" tool_name
              [("agent_name",
                getattr_default I agent "role" (PStr "unknown_agent"));
               ("tool_name", tool_name);
               ("tool_input", serialized_input)] PNone w in
          match fst proposed with
          | Ok d =>
              (Ok tt,
               if truthy d
               then snd (transition_decision_body I R d "failed"
                           (PDict [("error", PStr (to_str I error))])
                           (snd proposed))
               else snd proposed)
          | Raise e => (Raise e, snd proposed)
          end
      end.
Proof.
  unfold Crewai.on_tool_error.
  destruct (negb (Crewai.log_tool_calls self)); [done|].
  unfold bind at 1. unfold lift at 1.
  destruct (serialize I tool_input) as [ji|e]; [|done].
  apply immediate_run.
Qed.

Lemma on_agent_thought_run I R self agent thought w :
  Crewai.on_agent_thought I R self agent thought w =
    if negb (Crewai.log_agent_thoughts self) then (Ok tt, w)
    else
      match slice_of I 2000 thought with
      | Raise e => (Raise e, w)
      | Ok cut =>
          (Ok tt,
           snd (Crewai._log_decision I R self "agent_reasoning" (PStr "think")
                  [("agent_name",
                    getattr_default I agent "role" (PStr "unknown_agent"));
                   ("thought", cut)] PNone w))
      end.
Proof.
  unfold Crewai.on_agent_thought.
  destruct (negb (Crewai.log_agent_thoughts self)); [done|].
  unfold bind at 1. unfold lift at 1.
  destruct (slice_of I 2000 thought) as [cut|e]; [|done].
  unfold bind, ret.
  match goal with
  | |- context [Crewai._log_decision I R self ?t ?a ?c ?r w] =>
      destruct (log_decision_returns I R (Crewai.crew_id self) "crewai"
                  (Some "reference_id") (Crewai.auto_approve self)
                  (Crewai.metadata self) t a c r w) as [d Hd];
      change (log_decision_body I R (Crewai.crew_id self) "crewai"
                (Some "reference_id") (Crewai.auto_approve self)
                (Crewai.metadata self) t a c r w)
        with (Crewai._log_decision I R self t a c r w) in Hd;
      destruct (Crewai._log_decision I R self t a c r w) as [[d'|e] w1]
  end; [done | simpl in Hd; discriminate].
Qed.

(** X6. The tool and thought hooks of the observer never touch the table of
    decisions in flight: a tool decision is closed inside the hook and a
    thought is never closed, so neither leaves an entry behind. *)
Theorem tool_and_thought_hooks_leave_the_table (I : interp) (R : remote)
    (self : Crewai.observer) :
  (forall agent tool_name tool_input tool_output,
     leaves_active
       (Crewai.on_tool_use I R self agent tool_name tool_input tool_output)) /\
  (forall agent tool_name tool_input error,
     leaves_active
       (Crewai.on_tool_error I R self agent tool_name tool_input error)) /\
  (forall agent thought,
     leaves_active (Crewai.on_agent_thought I R self agent thought)).
Proof.
  repeat split; intros; intros w.
  - rewrite on_tool_use_run.
    destruct (negb _); [done|]. destruct (serialize I tool_input); [|done].
    destruct (rbind _ _); [|done]. cbv zeta.
    match goal with
    | |- context [fst ?p] =>
        assert (Hact : active (snd p) = active w) by apply log_decision_active;
        destruct (fst p) as [d|e]
    end; cbn [snd]; [|done].
    destruct (truthy d); [|done]. by rewrite transition_active.
  - rewrite on_tool_error_run.
    destruct (negb _); [done|]. destruct (serialize I tool_input); [|done].
    cbv zeta.
    match goal with
    | |- context [fst ?p] =>
        assert (Hact : active (snd p) = active w) by apply log_decision_active;
        destruct (fst p) as [d|e]
    end; cbn [snd]; [|done].
    destruct (truthy d); [|done]. by rewrite transition_active.
  - rewrite on_agent_thought_run.
    destruct (negb _); [done|]. destruct (slice_of I 2000 thought); [|done].
    apply log_decision_active.
Qed.

Lemma filter_terminal_app (l1 l2 : list request) :
  List.filter terminal (l1 ++ l2) = List.filter terminal l1 ++ List.filter terminal l2.
Proof. apply List.filter_app. Qed.

(** A propose call issues no terminal transition. *)
Lemma log_decision_no_terminal I R agent source ref_key auto metadata
    decision_type action context reference_id w :
  List.filter terminal
    (issued w (snd (log_decision_body I R agent source ref_key auto metadata
                      decision_type action context reference_id w))) = [].
Proof.
  destruct (log_decision_effect I R agent source ref_key auto metadata
              decision_type action context reference_id w)
    as (v & w' & Hrun & _ & Hcase).
  rewrite Hrun. cbv zeta in Hcase. cbn [snd].
  destruct (created _) as [e|d].
  - destruct Hcase as (_ & Hsent & _). by rewrite (issued_app _ _ _ Hsent).
  - destruct Hcase as (_ & Hsent). rewrite (issued_app _ _ _ Hsent).
    destruct (auto && truthy d); reflexivity.
Qed.

Lemma issued_trans w w1 w2 l1 l2 :
  sent w1 = sent w ++ l1 -> sent w2 = sent w1 ++ l2 -> issued w w2 = l1 ++ l2.
Proof. intros H1 H2. apply issued_app. by rewrite H2, H1, <- app_assoc. Qed.

Lemma log_decision_appends I R agent source ref_key auto metadata
    decision_type action context reference_id w :
  exists l,
    sent (snd (log_decision_body I R agent source ref_key auto metadata
                 decision_type action context reference_id w)) = sent w ++ l.
Proof.
  destruct (log_decision_effect I R agent source ref_key auto metadata
              decision_type action context reference_id w)
    as (v & w' & Hrun & _ & Hcase).
  rewrite Hrun. cbv zeta in Hcase. cbn [snd].
  destruct (created _) as [e|d].
  - destruct Hcase as (_ & Hsent & _). eauto.
  - destruct Hcase as (_ & Hsent). eauto.
Qed.

(** X7. [on_tool_use] returns normally exactly when tool logging is off, or
    the tool input serializes and the tool output serializes to a string or
    a list (the two things the slice [[:2000]] accepts); and when it raises
    it has sent nothing, logged nothing and stored nothing. *)
Theorem on_tool_use_returns_iff (I : interp) (R : remote)
    (self : Crewai.observer) (agent tool_name tool_input tool_output : value)
    (w : world) :
  (fst (Crewai.on_tool_use I R self agent tool_name tool_input tool_output w)
     = Ok tt <->
   Crewai.log_tool_calls self = false \/
   ((exists j, serialize I tool_input = Ok j) /\
    ((exists s, serialize I tool_output = Ok (PStr s)) \/
     (exists l, serialize I tool_output = Ok (PList l))))) /\
  (forall e,
     fst (Crewai.on_tool_use I R self agent tool_name tool_input tool_output w)
       = Raise e ->
     snd (Crewai.on_tool_use I R self agent tool_name tool_input tool_output w)
       = w).
Proof.
  rewrite on_tool_use_run.
  destruct (Crewai.log_tool_calls self); cbn [negb].
  2: { split; [split; auto | done]. }
  destruct (serialize I tool_input) as [ji|e1].
  2: { split; [|done]. split; [done|].
       intros [?|[[j Hj] _]]; done. }
  destruct (serialize I tool_output) as [jo|e2] eqn:Hout.
  2: { split; [|done]. split; [done|].
       intros [?|[_ [[s Hs]|[l Hl]]]]; done. }
  assert (Hnot_tuple : forall vs, jo <> PTuple vs).
  { intros vs ->. by destruct (serialize_output_bounded _ _ _ _ Hout). }
  cbn [rbind].
  destruct jo; cbn [slice_to];
    try (split; [|done]; split; [done|]; intros [?|[_ [[s Hs]|[l Hl]]]]; done);
    try (by destruct (Hnot_tuple vs)).
  - cbv zeta.
    match goal with
    | |- context [Crewai._log_decision I R self ?t ?a ?c ?r w] =>
        destruct (log_decision_returns I R (Crewai.crew_id self) "crewai"
                    (Some "reference_id") (Crewai.auto_approve self)
                    (Crewai.metadata self) t a c r w) as [d Hd];
        change (log_decision_body I R (Crewai.crew_id self) "crewai"
                  (Some "reference_id") (Crewai.auto_approve self)
                  (Crewai.metadata self) t a c r w)
          with (Crewai._log_decision I R self t a c r w) in Hd;
        rewrite Hd
    end.
    split; [|done]. split; [|done]. intros _. right. split; eauto.
  - cbv zeta.
    match goal with
    | |- context [Crewai._log_decision I R self ?t ?a ?c ?r w] =>
        destruct (log_decision_returns I R (Crewai.crew_id self) "crewai"
                    (Some "reference_id") (Crewai.auto_approve self)
                    (Crewai.metadata self) t a c r w) as [d Hd];
        change (log_decision_body I R (Crewai.crew_id self) "crewai"
                  (Some "reference_id") (Crewai.auto_approve self)
                  (Crewai.metadata self) t a c r w)
          with (Crewai._log_decision I R self t a c r w) in Hd;
        rewrite Hd
    end.
    split; [|done]. split; [|done]. intros _. right. split; eauto.
Qed.

Lemma on_tool_use_returns_iff_witness :
  fst (Crewai.on_tool_use bare_host echo_store demo_observer (PObj 7)
         (PStr "search") (PDict [("q", PStr "x")]) (PTuple [PInt 1; PInt 2]) idle)
    = Ok tt.
Proof.
  apply (proj2 (proj1 (on_tool_use_returns_iff bare_host echo_store demo_observer
                         (PObj 7) (PStr "search") (PDict [("q", PStr "x")])
                         (PTuple [PInt 1; PInt 2]) idle))).
  right. split; [eexists; reflexivity | right; eexists; reflexivity].
Defined.

(** A decision proposed and moved to a terminal status at once: the only
    terminal transition issued is the one of the id propose returned. *)
Lemma immediate_terminal I R agent source ref_key auto metadata
    decision_type action context reference_id status result w :
  status = "executed" \/ status = "failed" ->
  exists d w1,
    log_decision_body I R agent source ref_key auto metadata
      decision_type action context reference_id w = (Ok d, w1) /\
    List.filter terminal
      (issued w (if truthy d
                 then snd (transition_decision_body I R d status result w1)
                 else w1)) =
      if truthy d then [transition_request I d status result] else [].
Proof.
  intros Hstatus.
  pose proof (log_decision_no_terminal I R agent source ref_key auto metadata
                decision_type action context reference_id w) as Hnone.
  destruct (log_decision_appends I R agent source ref_key auto metadata
              decision_type action context reference_id w) as [l Hl].
  destruct (log_decision_effect I R agent source ref_key auto metadata
              decision_type action context reference_id w)
    as (d & w1 & Hrun & _ & _).
  rewrite Hrun in Hnone, Hl. cbn [snd] in Hnone, Hl.
  exists d, w1. split; [done|].
  rewrite (issued_app _ _ _ Hl) in Hnone.
  destruct (truthy d).
  - destruct (transition_effect I R d status result w1) as (_ & Hsent & _).
    rewrite (issued_trans _ _ _ _ _ Hl Hsent), filter_terminal_app, Hnone.
    simpl. by rewrite transition_request_terminal.
  - by rewrite (issued_app _ _ _ Hl).
Qed.

(** X8. When [on_tool_use] goes through (logging on, input and output
    accepted), it proposes the tool decision and closes it at once: the only
    terminal transition it issues is "executed" for the id propose returned,
    without a result; if propose returned no id it issues none. *)
Theorem on_tool_use_executes_at_once (I : interp) (R : remote)
    (self : Crewai.observer) (agent tool_name tool_input tool_output : value)
    (serialized_input serialized_output : value) (w : world) :
  Crewai.log_tool_calls self = true ->
  serialize I tool_input = Ok serialized_input ->
  rbind (serialize I tool_output) (slice_to 2000) = Ok serialized_output ->
  exists d w1,
    Crewai._log_decision I R self "tool_usage" tool_name
      [("agent_name", getattr_default I agent "role" (PStr "unknown_agent"));
       ("tool_name", tool_name);
       ("tool_input", serialized_input);
       ("tool_output", serialized_output)] PNone w = (Ok d, w1) /\
    List.filter terminal
      (issued w (snd (Crewai.on_tool_use I R self agent tool_name
                        tool_input tool_output w))) =
      if truthy d
      then [{| url := transition_url I d; json := [("status", PStr "executed")] |}]
      else [].
Proof.
  intros Hon Hin Hout. rewrite on_tool_use_run, Hon, Hin, Hout. cbn [negb]. cbv zeta.
  destruct (immediate_terminal I R (Crewai.crew_id self) "crewai"
              (Some "reference_id") (Crewai.auto_approve self)
              (Crewai.metadata self) "tool_usage" tool_name
              [("agent_name", getattr_default I agent "role" (PStr "unknown_agent"));
               ("tool_name", tool_name);
               ("tool_input", serialized_input);
               ("tool_output", serialized_output)] PNone "executed" PNone w
              (or_introl eq_refl))
    as (d & w1 & Hrun & Hterm).
  exists d, w1. split; [exact Hrun|].
  unfold Crewai._log_decision. rewrite Hrun. cbn [fst snd].
  destruct (truthy d); exact Hterm.
Qed.

Lemma on_tool_use_executes_at_once_witness :
  exists d w1,
    Crewai._log_decision bare_host echo_store demo_observer "tool_usage"
      (PStr "search")
      [("agent_name", getattr_default bare_host (PObj 7) "role"
                        (PStr "unknown_agent"));
       ("tool_name", PStr "search");
       ("tool_input", PStr "q");
       ("tool_output", PStr "out")] PNone idle = (Ok d, w1) /\
    List.filter terminal
      (issued idle (snd (Crewai.on_tool_use bare_host echo_store demo_observer
                           (PObj 7) (PStr "search") (PStr "q") (PStr "out") idle))) =
      if truthy d
      then [{| url := transition_url bare_host d;
               json := [("status", PStr "executed")] |}]
      else [].
Proof.
  apply (on_tool_use_executes_at_once bare_host echo_store demo_observer
           (PObj 7) (PStr "search") (PStr "q") (PStr "out")
           (PStr "q") (PStr "out") idle); reflexivity.
Defined.



(** X10. A thought is proposed and never closed: [on_agent_thought] issues
    no terminal transition, whatever the store answers.  It returns normally
    exactly when thought logging is off or the slice [thought[:2000]] can be
    taken, which is the case of every thought that is a string. *)
Theorem on_agent_thought_never_closes (I : interp) (R : remote)
    (self : Crewai.observer) (agent thought : value) (w : world) :
  List.filter terminal
    (issued w (snd (Crewai.on_agent_thought I R self agent thought w))) = [] /\
  (fst (Crewai.on_agent_thought I R self agent thought w) = Ok tt <->
   Crewai.log_agent_thoughts self = false \/
   (exists cut, slice_of I 2000 thought = Ok cut)) /\
  (forall s, thought = PStr s ->
     fst (Crewai.on_agent_thought I R self agent thought w) = Ok tt).
Proof.
  rewrite on_agent_thought_run.
  destruct (Crewai.log_agent_thoughts self); cbn [negb].
  2: { split; [by rewrite issued_same | split; [split; auto | done]]. }
  split; [|split].
  - destruct (slice_of I 2000 thought) as [cut|e]; cbn [fst snd].
    + apply log_decision_no_terminal.
    + by rewrite issued_same.
  - destruct (slice_of I 2000 thought) as [cut|e]; cbn [fst snd].
    + split; eauto.
    + split; [done|]. intros [?|[cut ?]]; done.
  - intros s ->. reflexivity.
Qed.

Lemma on_agent_thought_never_closes_witness :
  fst (Crewai.on_agent_thought bare_host echo_store demo_observer (PObj 7)
         (PStr "thinking") idle) = Ok tt.
Proof.
  exact (proj2 (proj2 (on_agent_thought_never_closes bare_host echo_store
                         demo_observer (PObj 7) (PStr "thinking") idle))
           "thinking" eq_refl).
Defined.

(** ** A reply without an id *)

Lemma falsy_id_body I R agent source ref_key auto metadata
    decision_type action context reference_id w d :
  (forall rq, created (http R (sent w) rq) = inr d) ->
  truthy d = false ->
  exists rq w',
    log_decision_body I R agent source ref_key auto metadata
      decision_type action context reference_id w = (Ok d, w') /\
    issued w w' = [rq] /\ errors w' = errors w /\ active w' = active w.
Proof.
  intros Hreply Hfalsy. rewrite log_decision_run. cbv zeta.
  rewrite Hreply, Hfalsy, andb_false_r.
  eexists _, _. split; [reflexivity|]. split; [by apply issued_app | done].
Qed.

(** X12. A reply that is accepted but carries no usable id (the key "id"
    missing, or its value [None], empty or zero) is not an error for
    propose: the value is returned as it is ([None] when the key is
    missing), nothing is logged, and no approval is sent even with
    auto-approve on. *)
Theorem falsy_id_is_returned_unapproved (I : interp) (R : remote)
    (w : world) (d : value) :
  (forall rq, created (http R (sent w) rq) = inr d) ->
  truthy d = false ->
  (forall self decision_type action context reference_id,
     exists rq w',
       Crewai._log_decision I R self decision_type action context reference_id w
         = (Ok d, w') /\
       issued w w' = [rq] /\ errors w' = errors w /\ active w' = active w) /\
  (forall self decision_type action context run_id,
     exists rq w',
       Callback._log_decision I R self decision_type action context run_id w
         = (Ok d, w') /\
       issued w w' = [rq] /\ errors w' = errors w /\ active w' = active w) /\
  (forall self decision_type action context,
     exists rq w',
       Middleware.log_decision I R self decision_type action context w
         = (Ok d, w') /\
       issued w w' = [rq] /\ errors w' = errors w /\ active w' = active w).
Proof.
  intros Hreply Hfalsy. repeat split; intros; by apply falsy_id_body.
Qed.

Lemma falsy_id_is_returned_unapproved_witness :
  exists rq w',
    Crewai._log_decision bare_host mute_store demo_observer "tool_usage"
      (PStr "search") [("q", PStr "x")] PNone idle = (Ok PNone, w') /\
    issued idle w' = [rq] /\ errors w' = errors idle /\ active w' = active idle.
Proof.
  apply (proj1 (falsy_id_is_returned_unapproved bare_host mute_store idle PNone
                  (fun _ => eq_refl) eq_refl)).
Defined.

(** ** The crew hooks of the observer *)






Lemma mapM_raises {A B} (f : A -> result B) (l : list A) a e :
  (forall x, In x l -> (exists y, f x = Ok y) \/ f x = Raise e) ->
  In a l -> f a = Raise e -> mapM f l = Raise e.
Proof.
  induction l as [|x l IH]; simpl; [done|].
  intros Hall Hin Ha.
  destruct (Hall x (or_introl eq_refl)) as [[y Hy]|Hx].
  - rewrite Hy. simpl. destruct Hin as [->|Hin]; [congruence|].
    rewrite IH; auto.
  - by rewrite Hx.
Qed.

(** X14. [on_crew_start] reads [a.role] without a default: a crew one of
    whose agents has no [role] makes the hook raise [AttributeError] into
    the host before anything is sent, logged or stored. *)
Theorem on_crew_start_needs_roles (I : interp) (R : remote)
    (self : Crewai.observer) (crew : value) (agents : list value) (a : value)
    (w : world) :
  getattr I crew "agents" = Some (PList agents) ->
  In a agents ->
  getattr I a "role" = None ->
  Crewai.on_crew_start I R self crew w = (Raise AttributeError, w).
Proof.
  intros Hagents Hin Hrole.
  assert (Hraise : Crewai.crew_agents I crew = Raise AttributeError).
  { unfold Crewai.crew_agents, hasattr, attr. rewrite Hagents. cbn [rbind iterate].
    apply (mapM_raises _ agents a); [|done|by rewrite Hrole].
    intros x _. destruct (getattr I x "role"); simpl; eauto. }
  unfold Crewai.on_crew_start, Crewai.crew_context, bind, lift.
  by rewrite Hraise.
Qed.

Lemma on_crew_start_needs_roles_witness :
  Crewai.on_crew_start crew_host echo_store demo_observer (PObj 0) idle
    = (Raise AttributeError, idle).
Proof.
  apply (on_crew_start_needs_roles crew_host echo_store demo_observer (PObj 0)
           [PObj 1; PObj 2] (PObj 2) idle);
    [reflexivity | right; left; reflexivity | reflexivity].
Defined.

(** ** Construction *)

Lemma unset_false_some (x : option string) :
  unset x = false -> exists s, x = Some s /\ s <> "".
Proof.
  destruct x as [s|]; simpl; [|done].
  intros H. exists s. split; [done|]. by apply String.eqb_neq.
Qed.






Lemma rstrip_slash_decomposes s : exists n, s = rstrip_slash s +:+ slashes n.
Proof.
  induction s as [|c rest [n IH]]; [by exists 0|].
  simpl. destruct (rstrip_slash rest) as [|c' kept] eqn:Hrest.
  - simpl in IH. destruct (Ascii.eqb c "/") eqn:Hc.
    + apply Ascii.eqb_eq in Hc. subst c. exists (S n). simpl. by rewrite IH.
    + exists n. simpl. by rewrite IH.
  - exists n. simpl. simpl in IH. by rewrite IH at 1.
Qed.

Lemma rstrip_slash_no_trailing s r : rstrip_slash s <> r +:+ "/".
Proof.
  revert r. induction s as [|c rest IH]; intros r; simpl.
  - by destruct r.
  - destruct (rstrip_slash rest) as [|c' kept] eqn:Hrest.
    + destruct (Ascii.eqb c "/") eqn:Hc.
      * by destruct r.
      * destruct r as [|c0 [|? ?]]; simpl; try done.
        intros H. inversion H; subst. by rewrite Ascii.eqb_refl in Hc.
    + destruct r as [|c0 r']; simpl; [done|].
      intros H. inversion H; subst. by apply (IH r').
Qed.

Lemma rstrip_slash_idempotent s : rstrip_slash (rstrip_slash s) = rstrip_slash s.
Proof.
  induction s as [|c rest IH]; [done|].
  simpl. destruct (rstrip_slash rest) as [|c' kept] eqn:Hrest.
  - destruct (Ascii.eqb c "/") eqn:Hc; simpl; [done|]. by rewrite Hc.
  - simpl. simpl in IH. by rewrite IH.
Qed.

(** X17. The base URL kept by a constructor is the argument with its
    trailing slashes removed and nothing else: it never ends in a slash, and
    stripping it again changes nothing. *)
Theorem constructors_strip_trailing_slashes
    (client_accepts : string -> string -> bool)
    (environ : string -> option string) (api_key agent_id : option string)
    (given : string) :
  (forall log_tool_calls log_agent_thoughts auto_approve metadata c,
     observer_init client_accepts environ api_key agent_id given log_tool_calls
       log_agent_thoughts auto_approve metadata = inr c ->
     strips_trailing_slashes given (api_url c) /\
     rstrip_slash (api_url c) = api_url c) /\
  (forall log_llm_calls log_chain_calls auto_approve metadata c,
     handler_init client_accepts environ api_key agent_id given log_llm_calls
       log_chain_calls auto_approve metadata = inr c ->
     strips_trailing_slashes given (api_url c) /\
     rstrip_slash (api_url c) = api_url c) /\
  (forall auto_approve metadata c,
     middleware_init client_accepts environ api_key agent_id given
       auto_approve metadata = inr c ->
     strips_trailing_slashes given (api_url c) /\
     rstrip_slash (api_url c) = api_url c).
Proof.
  assert (Hstrip : strips_trailing_slashes given (rstrip_slash given) /\
                   rstrip_slash (rstrip_slash given) = rstrip_slash given).
  { split; [split|].
    - apply rstrip_slash_decomposes.
    - intros [r Hr]. by apply (rstrip_slash_no_trailing given r).
    - apply rstrip_slash_idempotent. }
  split; [|split]; intros until c;
    unfold observer_init, handler_init, middleware_init; cbv zeta;
    repeat match goal with
           | |- context [unset ?x] => destruct (unset x)
           end;
    try match goal with
        | |- context [negb ?b] => destruct b
        end;
    intros H; inversion H; subst; exact Hstrip.
Qed.

Lemma constructors_strip_trailing_slashes_witness :
  strips_trailing_slashes "https://api.contextgraph.dev//"
    "https://api.contextgraph.dev".
Proof.
  exact (proj1 (proj1 (constructors_strip_trailing_slashes (fun _ _ => true)
                         demo_environ None None
                         "https://api.contextgraph.dev//")
                  true true false None _ eq_refl)).
Defined.

(** ** The hooks of the middleware *)

Lemma log_tool_execution_resume_run I R describe decision_id yielded w :
  Middleware.log_tool_execution_resume I R describe decision_id yielded w =
    match yielded with
    | Ok result =>
        if truthy decision_id
        then match serialize I result with
             | Ok serialized_result =>
                 (Ok result,
                  snd (transition_decision_body I R decision_id "executed"
                         (PDict [("output", serialized_result)]) w))
             | Raise e =>
                 (Raise e,
                  snd (transition_decision_body I R decision_id "failed"
                         (PDict [("error", PStr (describe e))]) w))
             end
        else (Ok result, w)
    | Raise e =>
        if truthy decision_id
        then (Raise e,
              snd (transition_decision_body I R decision_id "failed"
                     (PDict [("error", PStr (describe e))]) w))
        else (Raise e, w)
    end.
Proof.
  unfold Middleware.log_tool_execution_resume, Middleware.transition_decision,
    try_except, bind, lift, ret, raise.
  destruct yielded as [result|e]; destruct (truthy decision_id); try done.
  - destruct (serialize I result) as [out|e]; rewrite transition_run; done.
  - rewrite transition_run. done.
Qed.

(** X18. Resuming [log_tool_execution] closes the tool decision exactly
    once and hands the outcome of the tool back to the host: with a decision
    id it issues one terminal transition, "executed" with the serialized
    result when the tool returned, "failed" with the text of the exception
    when the tool raised, and then returns that result or raises that
    exception again; without a decision id it issues nothing. *)
Theorem tool_call_is_closed_once (I : interp) (R : remote)
    (describe : exn -> string) (decision_id : value) (w : world) :
  (forall result serialized_result,
     truthy decision_id = true ->
     serialize I result = Ok serialized_result ->
     fst (Middleware.log_tool_execution_resume I R describe decision_id
            (Ok result) w) = Ok result /\
     issued w (snd (Middleware.log_tool_execution_resume I R describe
                      decision_id (Ok result) w)) =
       [{| url := transition_url I decision_id;
           json := [("status", PStr "executed");
                    ("result", PDict [("output", serialized_result)])] |}]) /\
  (forall e,
     truthy decision_id = true ->
     fst (Middleware.log_tool_execution_resume I R describe decision_id
            (Raise e) w) = Raise e /\
     issued w (snd (Middleware.log_tool_execution_resume I R describe
                      decision_id (Raise e) w)) =
       [{| url := transition_url I decision_id;
           json := [("status", PStr "failed");
                    ("result", PDict [("error", PStr (describe e))])] |}]) /\
  (forall yielded,
     truthy decision_id = false ->
     Middleware.log_tool_execution_resume I R describe decision_id yielded w
       = (yielded, w)) /\
  (forall yielded,
     active (snd (Middleware.log_tool_execution_resume I R describe
                    decision_id yielded w)) = active w).
Proof.
  repeat split; intros; rewrite log_tool_execution_resume_run.
  - by rewrite H, H0.
  - rewrite H, H0. cbn [snd].
    destruct (transition_effect I R decision_id "executed"
                (PDict [("output", serialized_result)]) w) as (_ & Hsent & _).
    by rewrite (issued_app _ _ _ Hsent).
  - by rewrite H.
  - rewrite H. cbn [snd].
    destruct (transition_effect I R decision_id "failed"
                (PDict [("error", PStr (describe e))]) w) as (_ & Hsent & _).
    by rewrite (issued_app _ _ _ Hsent).
  - rewrite H. by destruct yielded.
  - destruct yielded as [result|e]; destruct (truthy decision_id); try done.
    + destruct (serialize I result); apply transition_active.
    + apply transition_active.
Qed.

Lemma tool_call_is_closed_once_witness :
  fst (Middleware.log_tool_execution_resume bare_host echo_store
         (fun _ => "error") (PStr "d1") (Ok (PStr "42")) idle) = Ok (PStr "42") /\
  issued idle (snd (Middleware.log_tool_execution_resume bare_host echo_store
                      (fun _ => "error") (PStr "d1") (Ok (PStr "42")) idle)) =
    [{| url := transition_url bare_host (PStr "d1");
        json := [("status", PStr "executed");
                 ("result", PDict [("output", PStr "42")])] |}].
Proof.
  apply (proj1 (tool_call_is_closed_once bare_host echo_store (fun _ => "error")
                  (PStr "d1") idle) (PStr "42") (PStr "42")); reflexivity.
Defined.

(** X19. When the tool returned but its result cannot be serialized, the
    exception of the serializer is caught by the same handler as a failure of
    the tool: the decision is closed as "failed" with the text of that
    exception, and the exception is raised into the host in place of the
    result of the tool. *)
Theorem unserializable_result_fails_the_tool_call (I : interp) (R : remote)
    (describe : exn -> string) (decision_id result : value) (e : exn)
    (w : world) :
  truthy decision_id = true ->
  serialize I result = Raise e ->
  fst (Middleware.log_tool_execution_resume I R describe decision_id
         (Ok result) w) = Raise e /\
  issued w (snd (Middleware.log_tool_execution_resume I R describe
                   decision_id (Ok result) w)) =
    [{| url := transition_url I decision_id;
        json := [("status", PStr "failed");
                 ("result", PDict [("error", PStr (describe e))])] |}].
Proof.
  intros Ht Hs. rewrite log_tool_execution_resume_run, Ht, Hs. cbn [fst snd].
  split; [done|].
  destruct (transition_effect I R decision_id "failed"
              (PDict [("error", PStr (describe e))]) w) as (_ & Hsent & _).
  by rewrite (issued_app _ _ _ Hsent).
Qed.

Lemma unserializable_result_fails_the_tool_call_witness :
  fst (Middleware.log_tool_execution_resume cyclic_host echo_store
         (fun _ => "maximum recursion depth exceeded") (PStr "d1")
         (Ok (PObj 0)) idle) = Raise RecursionError /\
  issued idle (snd (Middleware.log_tool_execution_resume cyclic_host echo_store
                      (fun _ => "maximum recursion depth exceeded") (PStr "d1")
                      (Ok (PObj 0)) idle)) =
    [{| url := transition_url cyclic_host (PStr "d1");
        json := [("status", PStr "failed");
                 ("result",
                  PDict [("error", PStr "maximum recursion depth exceeded")])] |}].
Proof.
  apply (unserializable_result_fails_the_tool_call cyclic_host echo_store
           (fun _ => "maximum recursion depth exceeded") (PStr "d1") (PObj 0)
           RecursionError idle); [reflexivity|].
  apply serialize_cycle_exhausts.
Defined.

Lemma once_per_unit_ext I key (start start' : M unit) proposed is_finish :
  (forall w, start w = start' w) ->
  once_per_unit I key start' proposed is_finish ->
  once_per_unit I key start proposed is_finish.
Proof.
  intros Heq H w finish1 finish2 Hf1 Hf2. cbv zeta. rewrite Heq.
  exact (H w finish1 finish2 Hf1 Hf2).
Qed.

Lemma log_model_end_shape I R state w :
  Middleware.log_model_end I R state w =
    unit_finish I R "model" "executed"
      (rbind (last_str_or_none I (default (PList []) (dict_get "messages" state)))
         (fun response => Ok (PDict [("response", response)]))) w.
Proof.
  unfold Middleware.log_model_end, Middleware.transition_decision,
    unit_finish, bind, lift.
  destruct (pop "model" w) as [[d|e] w1]; [|done].
  destruct (truthy d); [|done].
  destruct (last_str_or_none I _); done.
Qed.

(** X20. The model hooks of the middleware file every model call under the
    one fixed key "model".  For one call the decision is closed at most
    once, as for any unit of work; and a [log_model_start] that runs while
    an earlier model call is still in flight replaces its id, so that the
    earlier decision is never closed. *)
Theorem model_calls_share_one_key (I : interp) (R : remote)
    (self : Middleware.ContextGraphClient) (state : dict) :
  once_per_unit I "model"
    (Middleware.log_model_start I R self state)
    (proposed_id (Middleware.model_context I state)
       (fun c => Middleware.log_decision I R self "model_call"
                   (PStr "invoke_model") c))
    (fun f => exists state', f = Middleware.log_model_end I R state') /\
  overwrites "model"
    (Middleware.log_model_start I R self state)
    (proposed_id (Middleware.model_context I state)
       (fun c => Middleware.log_decision I R self "model_call"
                   (PStr "invoke_model") c)).
Proof.
  split.
  - intros w finish1 finish2 [s1 ->] [s2 ->].
    apply (once_per_unit_shape I R "model" (Middleware.model_context I state)
             (fun c => Middleware.log_decision I R self "model_call"
                         (PStr "invoke_model") c)).
    + apply log_decision_leaves_table.
    + eexists _, _. split; [|intros w0; apply log_model_end_shape]. auto.
    + eexists _, _. split; [|intros w0; apply log_model_end_shape]. auto.
  - apply (overwrites_shape "model" (Middleware.model_context I state)
             (fun c => Middleware.log_decision I R self "model_call"
                         (PStr "invoke_model") c)).
    apply log_decision_leaves_table.
Qed.

Lemma model_calls_share_one_key_witness :
  let client := {| Middleware.agent_id := "agent";
                   Middleware.auto_approve := false;
                   Middleware.metadata := [] |} in
  let state := [("messages", PList [PStr "hello"])] in
  let busy := {| sent := []; errors := [];
                 active := <["model" := PStr "d0"]> ∅ |} in
  active (snd (Middleware.log_model_start bare_host echo_store client state busy))
    !! "model" = Some (PStr "d1").
Proof.
  exact (proj1 (proj2 (model_calls_share_one_key bare_host echo_store
                         {| Middleware.agent_id := "agent";
                            Middleware.auto_approve := false;
                            Middleware.metadata := [] |}
                         [("messages", PList [PStr "hello"])])
                  {| sent := []; errors := [];
                     active := <["model" := PStr "d0"]> ∅ |}
                  (PStr "d0") (PStr "d1") eq_refl eq_refl eq_refl)).
Defined.

(** ** The LLM and chain hooks of the callback handler *)

Lemma on_llm_start_shape I R self serialized prompts run_id tags metadata w :
  Callback.log_llm_calls self = true ->
  Callback.on_llm_start I R self serialized prompts run_id tags metadata w =
    unit_start run_id
      (Ok [("model", default (PStr "unknown_model") (dict_get "name" serialized));
           ("prompts", prompts);
           ("tags", tags);
           ("metadata", metadata)])
      (fun c => Callback._log_decision I R self "llm_call"
                  (default (PStr "unknown_model") (dict_get "name" serialized))
                  c (PStr run_id)) w.
Proof. intros H. unfold Callback.on_llm_start. rewrite H. reflexivity. Qed.

Lemma on_llm_end_shape I R self response run_id w :
  Callback.log_llm_calls self = true ->
  Callback.on_llm_end I R self response run_id w =
    unit_finish I R run_id "executed"
      (rbind (Callback.generation_texts I response)
         (fun texts => Ok (PDict [("generations", texts);
                                  ("llm_output", Callback.llm_output response)]))) w.
Proof.
  intros H. unfold Callback.on_llm_end. rewrite H. cbn [negb].
  unfold Callback._transition_decision, unit_finish, bind, lift.
  destruct (pop run_id w) as [[d|e] w1]; [|done].
  destruct (truthy d); [|done].
  destruct (Callback.generation_texts I response); done.
Qed.

Lemma on_llm_error_shape I R self error run_id w :
  Callback.log_llm_calls self = true ->
  Callback.on_llm_error I R self error run_id w =
    unit_finish I R run_id "failed"
      (Ok (PDict [("error", PStr (to_str I error))])) w.
Proof. intros H. unfold Callback.on_llm_error. rewrite H. reflexivity. Qed.

(** X21. The LLM hooks follow [log_llm_calls].  Switched off, the three
    hooks do nothing at all: no request, no log line, and an entry another
    hook filed under the same run id stays where it is.  Switched on, an LLM
    call is a unit of work like the others: its decision is stored under the
    run id and closed at most once. *)
Theorem llm_hooks_follow_the_switch (I : interp) (R : remote)
    (self : Callback.handler) :
  (Callback.log_llm_calls self = false ->
   forall serialized prompts run_id tags metadata response error w,
     Callback.on_llm_start I R self serialized prompts run_id tags metadata w
       = (Ok tt, w) /\
     Callback.on_llm_end I R self response run_id w = (Ok tt, w) /\
     Callback.on_llm_error I R self error run_id w = (Ok tt, w)) /\
  (Callback.log_llm_calls self = true ->
   forall serialized prompts run_id tags metadata,
     once_per_unit I run_id
       (Callback.on_llm_start I R self serialized prompts run_id tags metadata)
       (proposed_id
          (Ok [("model",
                default (PStr "unknown_model") (dict_get "name" serialized));
               ("prompts", prompts);
               ("tags", tags);
               ("metadata", metadata)])
          (fun c => Callback._log_decision I R self "llm_call"
                      (default (PStr "unknown_model") (dict_get "name" serialized))
                      c (PStr run_id)))
       (fun f =>
          (exists response, f = Callback.on_llm_end I R self response run_id) \/
          (exists error, f = Callback.on_llm_error I R self error run_id))).
Proof.
  split.
  - intros Hoff serialized prompts run_id tags metadata response error w.
    unfold Callback.on_llm_start, Callback.on_llm_end, Callback.on_llm_error.
    by rewrite Hoff.
  - intros Hon serialized prompts run_id tags metadata.
    eapply once_per_unit_ext;
      [intros w; by apply on_llm_start_shape|].
    intros w finish1 finish2 Hf1 Hf2.
    apply (once_per_unit_shape I R run_id
             (Ok [("model",
                   default (PStr "unknown_model") (dict_get "name" serialized));
                  ("prompts", prompts);
                  ("tags", tags);
                  ("metadata", metadata)])
             (fun c => Callback._log_decision I R self "llm_call"
                         (default (PStr "unknown_model")
                            (dict_get "name" serialized))
                         c (PStr run_id))).
    + apply log_decision_leaves_table.
    + destruct Hf1 as [[response ->]|[error ->]]; eexists _, _;
        (split; [|intros w0;
                  first [ by apply on_llm_end_shape
                        | by apply on_llm_error_shape ]]); auto.
    + destruct Hf2 as [[response ->]|[error ->]]; eexists _, _;
        (split; [|intros w0;
                  first [ by apply on_llm_end_shape
                        | by apply on_llm_error_shape ]]); auto.
Qed.

Lemma llm_hooks_follow_the_switch_witness :
  let busy := {| sent := []; errors := [];
                 active := <["run-1" := PStr "d0"]> ∅ |} in
  Callback.on_llm_end bare_host echo_store demo_handler
    {| Callback.generations := PList []; Callback.llm_output := PNone |}
    "run-1" busy = (Ok tt, busy).
Proof.
  exact (proj1 (proj2 (proj1 (llm_hooks_follow_the_switch bare_host echo_store
                                demo_handler) eq_refl
                         [] PNone "run-1" PNone PNone
                         {| Callback.generations := PList [];
                            Callback.llm_output := PNone |}
                         PNone
                         {| sent := []; errors := [];
                            active := <["run-1" := PStr "d0"]> ∅ |}))).
Defined.

Lemma unit_finish_takes_once I R key status result :
  takes_once key (unit_finish I R key status result).
Proof.
  intros w. destruct (unit_finish_effect I R key status result w) as [Hact Hsent].
  split; [rewrite Hact; apply lookup_delete_eq|].
  split.
  - destruct (active w !! key) as [d|].
    + destruct (truthy d).
      * destruct result as [r|e]; destruct Hsent as [_ Hsent].
        -- rewrite (issued_app _ _ _ Hsent). simpl.
           destruct (terminal _); simpl; lia.
        -- rewrite (issued_same _ _ Hsent). simpl. lia.
      * rewrite (issued_same _ _ Hsent). simpl. lia.
    + rewrite (issued_same _ _ Hsent). simpl. lia.
  - intros Hfree. by rewrite Hfree in Hsent.
Qed.

Lemma takes_once_ext key (f g : M unit) :
  (forall w, f w = g w) -> takes_once key g -> takes_once key f.
Proof. intros Hfg Hg w. rewrite Hfg. apply Hg. Qed.

(** X22. The chain end and error hooks follow [log_chain_calls].  Switched
    on, each takes the entry of the run id for good: afterwards the key is
    free, at most one terminal transition was issued, and none if the key
    was free before.  Switched off, they do nothing, and an entry filed
    under the run id stays in the table. *)
Theorem chain_end_hooks_follow_the_switch (I : interp) (R : remote)
    (self : Callback.handler) (run_id : string) :
  (Callback.log_chain_calls self = true ->
   (forall outputs,
      takes_once run_id (Callback.on_chain_end I R self outputs run_id)) /\
   (forall error,
      takes_once run_id (Callback.on_chain_error I R self error run_id))) /\
  (Callback.log_chain_calls self = false ->
   forall outputs error w,
     Callback.on_chain_end I R self outputs run_id w = (Ok tt, w) /\
     Callback.on_chain_error I R self error run_id w = (Ok tt, w)).
Proof.
  split.
  - intros Hon. split.
    + intros outputs.
      apply (takes_once_ext run_id _
               (unit_finish I R run_id "executed"
                  (rbind (serialize I outputs)
                     (fun s => Ok (PDict [("outputs", s)]))))).
      * intros w. unfold Callback.on_chain_end. rewrite Hon. cbn [negb].
        unfold Callback._transition_decision, unit_finish, bind, lift.
        destruct (pop run_id w) as [[d|e] w1]; [|done].
        destruct (truthy d); [|done]. destruct (serialize I outputs); done.
      * apply unit_finish_takes_once.
    + intros error.
      apply (takes_once_ext run_id _
               (unit_finish I R run_id "failed"
                  (Ok (PDict [("error", PStr (to_str I error))])))).
      * intros w. unfold Callback.on_chain_error. rewrite Hon. reflexivity.
      * apply unit_finish_takes_once.
  - intros Hoff outputs error w.
    unfold Callback.on_chain_end, Callback.on_chain_error. by rewrite Hoff.
Qed.

Lemma chain_end_hooks_follow_the_switch_witness :
  let busy := {| sent := []; errors := [];
                 active := <["run-1" := PStr "d0"]> ∅ |} in
  active (snd (Callback.on_chain_end bare_host echo_store demo_handler
                 (PDict [("answer", PStr "42")]) "run-1" busy)) !! "run-1" = None
  /\
  length (List.filter terminal
            (issued busy (snd (Callback.on_chain_end bare_host echo_store
                                 demo_handler (PDict [("answer", PStr "42")])
                                 "run-1" busy)))) <= 1.
Proof.
  destruct (proj1 (proj1 (chain_end_hooks_follow_the_switch bare_host echo_store
                            demo_handler "run-1") eq_refl)
              (PDict [("answer", PStr "42")])
              {| sent := []; errors := [];
                 active := <["run-1" := PStr "d0"]> ∅ |})
    as (Hfree & Hcount & _).
  split; [exact Hfree | exact Hcount].
Defined.

Lemma log_tool_execution_resume_closes I R describe decision_id yielded w :
  truthy decision_id = true ->
  exists rq,
    sent (snd (Middleware.log_tool_execution_resume I R describe decision_id
                 yielded w)) = sent w ++ [rq] /\
    terminal rq = true /\ url rq = transition_url I decision_id.
Proof.
  intros Ht. rewrite log_tool_execution_resume_run, Ht.
  destruct yielded as [result|e]; [destruct (serialize I result) as [out|e]|];
    cbn [snd];
    match goal with
    | |- context [transition_decision_body I R decision_id ?st ?res w] =>
        destruct (transition_effect I R decision_id st res w) as (_ & Hsent & _);
        exists (transition_request I decision_id st res);
        (split; [exact Hsent|]); split; [|reflexivity];
        apply transition_request_terminal; auto
    end.
Qed.

(** X23. A tool call wrapped by [log_tool_execution] closes the decision it
    proposed, and only that one: over the part before the [yield] and the
    part after it, whatever the tool did and whatever the store answered,
    exactly one terminal transition is issued when propose returned an id,
    for that id, and none when it did not; and when the arguments of the
    tool cannot be serialized the generator raises before it has sent
    anything. *)
Theorem wrapped_tool_call_closes_its_decision (I : interp) (R : remote)
    (self : Middleware.ContextGraphClient) (describe : exn -> string)
    (tool_call : dict) (yielded : result value) (w : world) :
  match Middleware.log_tool_execution_before I R self tool_call w with
  | (Ok decision_id, proposed) =>
      let closed :=
        snd (Middleware.log_tool_execution_resume I R describe decision_id
               yielded proposed) in
      if truthy decision_id
      then exists rq,
             List.filter terminal (issued w closed) = [rq] /\
             url rq = transition_url I decision_id
      else List.filter terminal (issued w closed) = []
  | (Raise e, unchanged) =>
      unchanged = w /\
      serialize I (default (PDict []) (dict_get "args" tool_call)) = Raise e
  end.
Proof.
  unfold Middleware.log_tool_execution_before, bind, lift.
  destruct (serialize I (default (PDict []) (dict_get "args" tool_call)))
    as [serialized_input|e]; [|done].
  match goal with
  | |- context [Middleware.log_decision I R self ?t ?a ?c w] =>
      pose proof (log_decision_no_terminal I R (Middleware.agent_id self)
                    "langchain-v1" None (Middleware.auto_approve self)
                    (Middleware.metadata self) t a c PNone w) as Hnone;
      destruct (log_decision_appends I R (Middleware.agent_id self)
                  "langchain-v1" None (Middleware.auto_approve self)
                  (Middleware.metadata self) t a c PNone w) as [l Hl];
      destruct (log_decision_returns I R (Middleware.agent_id self)
                  "langchain-v1" None (Middleware.auto_approve self)
                  (Middleware.metadata self) t a c PNone w) as [d Hd];
      change (log_decision_body I R (Middleware.agent_id self) "langchain-v1"
                None (Middleware.auto_approve self) (Middleware.metadata self)
                t a c PNone w)
        with (Middleware.log_decision I R self t a c w) in Hnone, Hl, Hd;
      destruct (Middleware.log_decision I R self t a c w) as [r proposed]
  end.
  cbn [fst snd] in *. subst r. cbv zeta.
  rewrite (issued_app _ _ _ Hl) in Hnone.
  destruct (truthy d) eqn:Ht.
  - destruct (log_tool_execution_resume_closes I R describe d yielded proposed Ht)
      as (rq & Hsent & Hterm & Hurl).
    exists rq. split; [|done].
    rewrite (issued_trans _ _ _ _ _ Hl Hsent), filter_terminal_app, Hnone.
    simpl. by rewrite Hterm.
  - rewrite log_tool_execution_resume_run, Ht.
    destruct yielded; cbn [snd]; by rewrite (issued_app _ _ _ Hl).
Qed.

(** ** When the hooks raise *)

Lemma unit_start_raises_only_before_proposing key context propose :
  leaves_table propose ->
  raises_only_before_proposing context (unit_start key context propose).
Proof.
  intros Hleaves w. unfold unit_start, bind, lift.
  destruct context as [c|e0].
  - destruct (Hleaves c w) as (v & w' & -> & _).
    destruct (truthy v); cbn [fst snd put ret]; (split; [split; eauto | done]).
  - cbn [fst snd]. split.
    + split; [done | by intros [c ?]].
    + intros e H. by inversion H.
Qed.

(** X24. The start hooks raise into the host only while they build the
    context of the decision (a text that cannot be sliced, an input that
    cannot be serialized): each returns normally exactly when its context is
    built, and when it raises nothing has been sent, logged or stored. *)
Theorem start_hooks_raise_only_before_proposing (I : interp) (R : remote) :
  (forall self task agent,
     raises_only_before_proposing (Crewai.task_context I task agent)
       (Crewai.on_task_start I R self task agent)) /\
  (forall self agent action action_input,
     raises_only_before_proposing
       (Crewai.action_context I agent action action_input)
       (Crewai.on_agent_action I R self agent action action_input)) /\
  (forall self action run_id,
     raises_only_before_proposing (Callback.action_context I action)
       (Callback.on_agent_action I R self action run_id)) /\
  (forall self serialized input_str run_id tags metadata inputs,
     raises_only_before_proposing
       (Callback.tool_context I serialized input_str tags metadata inputs)
       (Callback.on_tool_start I R self serialized input_str run_id
          tags metadata inputs)) /\
  (forall self state,
     raises_only_before_proposing (Middleware.model_context I state)
       (Middleware.log_model_start I R self state)).
Proof.
  split; [|split; [|split; [|split]]]; intros.
  - apply (unit_start_raises_only_before_proposing (id_str I task)
             (Crewai.task_context I task agent)
             (fun c => Crewai._log_decision I R self "task_execution"
                         (PStr "execute_task") c (PStr (id_str I task)))).
    apply log_decision_leaves_table.
  - apply (unit_start_raises_only_before_proposing
             ("action_" +:+ Crewai.agent_key I agent)
             (Crewai.action_context I agent action action_input)
             (fun c => Crewai._log_decision I R self "agent_action" action c
                         (PStr (Crewai.agent_key I agent)))).
    apply log_decision_leaves_table.
  - apply (unit_start_raises_only_before_proposing run_id
             (Callback.action_context I action)
             (fun c => Callback._log_decision I R self "tool_invocation"
                         (Callback.tool action) c (PStr run_id))).
    apply log_decision_leaves_table.
  - apply (unit_start_raises_only_before_proposing run_id
             (Callback.tool_context I serialized input_str tags metadata inputs)
             (fun c => Callback._log_decision I R self "tool_execution"
                         (default (PStr "unknown_tool")
                            (dict_get "name" serialized))
                         c (PStr run_id))).
    apply log_decision_leaves_table.
  - apply (unit_start_raises_only_before_proposing "model"
             (Middleware.model_context I state)
             (fun c => Middleware.log_decision I R self "model_call"
                         (PStr "invoke_model") c)).
    apply log_decision_leaves_table.
Qed.

Lemma start_hooks_raise_only_before_proposing_witness :
  fst (Crewai.on_task_start crew_host echo_store demo_observer (PObj 3) (PObj 1)
         idle) = Ok tt /\
  fst (Crewai.on_task_start fussy_host echo_store demo_observer (PObj 6) (PObj 7)
         idle) = Ok tt.
Proof.
  split.
  - apply (proj2 (proj1 (proj1 (start_hooks_raise_only_before_proposing crew_host
                                  echo_store)
                           demo_observer (PObj 3) (PObj 1) idle))).
    eexists. reflexivity.
  - apply (proj2 (proj1 (proj1 (start_hooks_raise_only_before_proposing
                                  fussy_host echo_store)
                           demo_observer (PObj 6) (PObj 7) idle))).
    eexists. reflexivity.
Defined.

Lemma unit_finish_drops_entry_on_failure I R key status result :
  drops_entry_on_failure key result (unit_finish I R key status result).
Proof.
  intros w d e Hentry Ht ->.
  destruct (unit_finish_effect I R key status (Raise e) w) as [Hact Hsent].
  rewrite Hentry, Ht in Hsent. destruct Hsent as [Hfst Hsent].
  split; [done|]. split; [done|]. split.
  - unfold unit_finish, bind, pop, lift. cbn. rewrite Hentry. cbn. by rewrite Ht.
  - rewrite Hact. apply lookup_delete_eq.
Qed.

Lemma drops_entry_on_failure_ext key result (f g : M unit) :
  (forall w, f w = g w) ->
  drops_entry_on_failure key result g -> drops_entry_on_failure key result f.
Proof. intros Hfg Hg w d e H1 H2 H3. rewrite Hfg. exact (Hg w d e H1 H2 H3). Qed.

(** X25. The end hooks that serialize an output do so after they have taken
    the entry out of the table.  When the serialization raises, the hook
    raises into the host without sending the transition, and the entry is
    gone: the decision stays open in the store and no later hook can close
    it. *)
Theorem failed_serialization_drops_the_entry (I : interp) (R : remote) :
  (forall agent output,
     drops_entry_on_failure ("action_" +:+ Crewai.agent_key I agent)
       (rbind (serialize I output) (fun s => Ok (PDict [("output", s)])))
       (Crewai.on_agent_finish I R agent output)) /\
  (forall finish run_id,
     drops_entry_on_failure run_id
       (rbind (serialize I (Callback.return_values finish))
          (fun s => Ok (PDict [("output", s);
                               ("log", Callback.finish_log finish)])))
       (Callback.on_agent_finish I R finish run_id)) /\
  (forall state,
     drops_entry_on_failure "model"
       (rbind (last_str_or_none I
                 (default (PList []) (dict_get "messages" state)))
          (fun response => Ok (PDict [("response", response)])))
       (Middleware.log_model_end I R state)).
Proof.
  split; [|split]; intros.
  - eapply drops_entry_on_failure_ext;
      [intros w; apply observer_on_agent_finish_shape
      |apply unit_finish_drops_entry_on_failure].
  - eapply drops_entry_on_failure_ext;
      [intros w; apply handler_on_agent_finish_shape
      |apply unit_finish_drops_entry_on_failure].
  - eapply drops_entry_on_failure_ext;
      [intros w; apply log_model_end_shape
      |apply unit_finish_drops_entry_on_failure].
Qed.

Lemma failed_serialization_drops_the_entry_witness :
  let busy := {| sent := []; errors := [];
                 active := <["run-1" := PStr "d1"]> ∅ |} in
  let finish := {| Callback.return_values := PObj 0;
                   Callback.finish_log := PStr "done" |} in
  fst (Callback.on_agent_finish cyclic_host echo_store finish "run-1" busy)
    = Raise RecursionError /\
  sent (snd (Callback.on_agent_finish cyclic_host echo_store finish "run-1" busy))
    = sent busy /\
  errors (snd (Callback.on_agent_finish cyclic_host echo_store finish "run-1" busy))
    = errors busy /\
  active (snd (Callback.on_agent_finish cyclic_host echo_store finish "run-1" busy))
    !! "run-1" = None.
Proof.
  apply (proj1 (proj2 (failed_serialization_drops_the_entry cyclic_host
                         echo_store))
           {| Callback.return_values := PObj 0;
              Callback.finish_log := PStr "done" |}
           "run-1"
           {| sent := []; errors := []; active := <["run-1" := PStr "d1"]> ∅ |}
           (PStr "d1") RecursionError); [reflexivity | reflexivity |].
  vm_compute. reflexivity.
Defined.



